(** * Review scheduling and queue selection of the Chinese conversation app

    A shallow embedding of the client code under [src/frontend/src]
    ([App.tsx] as kept in [types.ts], [services/scheduler.ts],
    [services/questions.ts], [services/auth.ts]) together with the parts of
    the Python cloud functions that the client calls and that are described
    by the specification only.

    Conventions.
    - A Firestore [Timestamp] is the pair of its [seconds] and [nanoseconds]
      fields; [Timestamp.toMillis()] is [seconds * 1000 + nanoseconds / 1e6]
      on JavaScript numbers, which is modelled on exact numbers by counting
      nanoseconds in [Z] (the same number whenever the nanoseconds are a
      whole number of milliseconds, as in every [Timestamp.fromDate(..)]).
    - The [vocabulary] collection is a finite map from document ids to
      document data; a query result is a list of (id, data) pairs in the
      order Firestore returns them.
    - Asynchronous functions are modelled by their result once every awaited
      promise has settled; a rejected promise is an explicit error value. *)

From Stdlib Require Import ZArith Lia.
From stdpp Require Import base decidable option list sorting strings gmap pretty.

Local Open Scope Z_scope.

(** ** Basic data: [types.ts] *)

(** [export type Language = 'mandarin' | 'cantonese'] *)
Inductive Language := mandarin | cantonese.

Global Instance Language_eq_dec : EqDecision Language.
Proof. solve_decision. Defined.


(** Firestore [Timestamp]: [{ seconds, nanoseconds }]. *)
Record Timestamp := mkTimestamp { seconds : Z; nanoseconds : Z }.

Global Instance Timestamp_eq_dec : EqDecision Timestamp.
Proof. solve_decision. Defined.

Definition NANOS_PER_SECOND : Z := 1000000000.
Definition MS_TO_NANOS : Z := 1000000.

Definition toNanos (t : Timestamp) : Z :=
  seconds t * NANOS_PER_SECOND + nanoseconds t.

(** The constructor of [Timestamp] rejects nanoseconds outside
    [0, 1e9); every timestamp of the store satisfies this. *)
Definition ts_wf (t : Timestamp) : Prop :=
  0 <= nanoseconds t < NANOS_PER_SECOND.

(** Firestore compares timestamps by seconds, then by nanoseconds. *)
Definition ts_lt (a b : Timestamp) : Prop :=
  seconds a < seconds b \/
  (seconds a = seconds b /\ nanoseconds a < nanoseconds b).

Definition ts_le (a b : Timestamp) : Prop := ts_lt a b \/ a = b.

Global Instance ts_lt_dec : RelDecision ts_lt.
Proof. intros a b. unfold ts_lt. apply _. Defined.

Global Instance ts_le_dec : RelDecision ts_le.
Proof. intros a b. unfold ts_le. apply _. Defined.

(** [Timestamp.fromMillis(ms)] for an integral number of milliseconds, as
    produced by [Timestamp.now()] and [Timestamp.fromDate(date)]. *)
Definition fromMillis (ms : Z) : Timestamp :=
  {| seconds := ms / 1000; nanoseconds := (ms mod 1000) * MS_TO_NANOS |}.

(** [export interface User] *)
Record User := {
  uid : string;
  email : option string;
  displayName : option string
}.

(** A JavaScript [Error] value: its message and, for Firebase errors, its
    [code]. *)
Record JsError := { code : option string; errorMessage : string }.

Definition Error (msg : string) : JsError :=
  {| code := None; errorMessage := msg |}.

(** The settled state of a promise returned by an [async] function. *)
Inductive Settled (A : Type) : Type :=
  | Resolved (value : A)
  | Rejected (reason : JsError).
Arguments Resolved {A} value.
Arguments Rejected {A} reason.

Definition andThen {A B} (p : Settled A) (k : A -> Settled B) : Settled B :=
  match p with
  | Resolved a => k a
  | Rejected e => Rejected e
  end.

Notation "'await' x <- p ;; k" := (andThen p (fun x => k))
  (at level 100, x pattern, p at next level, right associativity,
   format "'[v' 'await'  x  <-  p  ;;  '/' k ']'").

(** [ReviewIntervals], with the values its comments give (minutes). *)
Record ReviewIntervals := {
  IMMEDIATE : Z;
  SHORT : Z;
  MEDIUM : Z;
  INITIAL : list Z;
  SUBSEQUENT : list Z
}.

Definition intervals : ReviewIntervals := {|
  IMMEDIATE := 5;
  SHORT := 15;
  MEDIUM := 30;
  INITIAL := [60; 240];
  SUBSEQUENT := [1440; 4320; 10080]
|}.

(** [AnswerEvaluation] of [scheduler.ts]. *)
Record AnswerEvaluation := {
  fluent : bool;
  meaningful_usage : bool;
  has_fillers : bool;
  romanization : string;
  improved_answer : option string;
  feedback : string
}.

(** The data of a [vocabulary] document ([VocabEntry] without its id).
    The per-language fields are named after the language, as the client
    builds their names: [nextReviewMandarin], [mastered_mandarin], and so
    on. An optional field that is absent from the document is [None].

    Modelled from the spec: [progress_mandarin] and [progress_cantonese]
    hold the [progressCount] of each track; the cloud functions that
    maintain them are not part of the client sources. *)
Record VocabData := {
  simplified : string;
  mandarinText : string;
  cantoneseText : string;
  timestamp : Timestamp;
  nextReviewMandarin : option Timestamp;
  nextReviewCantonese : option Timestamp;
  mastered_mandarin : option bool;
  mastered_cantonese : option bool;
  progress_mandarin : nat;
  progress_cantonese : nat
}.

(** [data[nextReviewField]] *)
Definition nextReviewOf (l : Language) (d : VocabData) : option Timestamp :=
  match l with
  | mandarin => nextReviewMandarin d
  | cantonese => nextReviewCantonese d
  end.

(** [data[masteredField]] *)
Definition masteredOf (l : Language) (d : VocabData) : option bool :=
  match l with
  | mandarin => mastered_mandarin d
  | cantonese => mastered_cantonese d
  end.

Definition progressOf (l : Language) (d : VocabData) : nat :=
  match l with
  | mandarin => progress_mandarin d
  | cantonese => progress_cantonese d
  end.

(** Partial updates of one language's fields; the sibling fields keep
    their values. *)
Definition set_nextReview (l : Language) (t : option Timestamp)
    (d : VocabData) : VocabData :=
  match l with
  | mandarin =>
      {| simplified := simplified d; mandarinText := mandarinText d;
         cantoneseText := cantoneseText d; timestamp := timestamp d;
         nextReviewMandarin := t;
         nextReviewCantonese := nextReviewCantonese d;
         mastered_mandarin := mastered_mandarin d;
         mastered_cantonese := mastered_cantonese d;
         progress_mandarin := progress_mandarin d;
         progress_cantonese := progress_cantonese d |}
  | cantonese =>
      {| simplified := simplified d; mandarinText := mandarinText d;
         cantoneseText := cantoneseText d; timestamp := timestamp d;
         nextReviewMandarin := nextReviewMandarin d;
         nextReviewCantonese := t;
         mastered_mandarin := mastered_mandarin d;
         mastered_cantonese := mastered_cantonese d;
         progress_mandarin := progress_mandarin d;
         progress_cantonese := progress_cantonese d |}
  end.

Definition set_mastered (l : Language) (m : option bool)
    (d : VocabData) : VocabData :=
  match l with
  | mandarin =>
      {| simplified := simplified d; mandarinText := mandarinText d;
         cantoneseText := cantoneseText d; timestamp := timestamp d;
         nextReviewMandarin := nextReviewMandarin d;
         nextReviewCantonese := nextReviewCantonese d;
         mastered_mandarin := m;
         mastered_cantonese := mastered_cantonese d;
         progress_mandarin := progress_mandarin d;
         progress_cantonese := progress_cantonese d |}
  | cantonese =>
      {| simplified := simplified d; mandarinText := mandarinText d;
         cantoneseText := cantoneseText d; timestamp := timestamp d;
         nextReviewMandarin := nextReviewMandarin d;
         nextReviewCantonese := nextReviewCantonese d;
         mastered_mandarin := mastered_mandarin d;
         mastered_cantonese := m;
         progress_mandarin := progress_mandarin d;
         progress_cantonese := progress_cantonese d |}
  end.

Definition set_progress (l : Language) (p : nat)
    (d : VocabData) : VocabData :=
  match l with
  | mandarin =>
      {| simplified := simplified d; mandarinText := mandarinText d;
         cantoneseText := cantoneseText d; timestamp := timestamp d;
         nextReviewMandarin := nextReviewMandarin d;
         nextReviewCantonese := nextReviewCantonese d;
         mastered_mandarin := mastered_mandarin d;
         mastered_cantonese := mastered_cantonese d;
         progress_mandarin := p;
         progress_cantonese := progress_cantonese d |}
  | cantonese =>
      {| simplified := simplified d; mandarinText := mandarinText d;
         cantoneseText := cantoneseText d; timestamp := timestamp d;
         nextReviewMandarin := nextReviewMandarin d;
         nextReviewCantonese := nextReviewCantonese d;
         mastered_mandarin := mastered_mandarin d;
         mastered_cantonese := mastered_cantonese d;
         progress_mandarin := progress_mandarin d;
         progress_cantonese := p |}
  end.

(** A document snapshot: [doc.id] and [doc.data()]. *)
Abbreviation Doc := (string * VocabData)%type.

(** ** The item store: Firestore queries *)

(** The fields the client's queries mention. *)
Inductive FieldPath :=
  | nextReviewField (l : Language)
  | timestampField.

Definition fieldValue (f : FieldPath) (d : VocabData) : option Timestamp :=
  match f with
  | nextReviewField l => nextReviewOf l d
  | timestampField => Some (timestamp d)
  end.

(** The comparison operators the client's [where] clauses use. *)
Inductive WhereOp := op_le | op_gt.

Definition whereHolds (op : WhereOp) (v bound : Timestamp) : Prop :=
  match op with
  | op_le => ts_le v bound
  | op_gt => ts_lt bound v
  end.

Global Instance whereHolds_dec op v bound : Decision (whereHolds op v bound).
Proof. destruct op; simpl; apply _. Defined.

(** [query(vocabRef, where(..)?, orderBy(..)?, limit(n))] *)
Record Query := {
  q_where : option (FieldPath * WhereOp * Timestamp);
  q_orderBy : option FieldPath;
  q_limit : nat
}.

(** A document matches when the filtered field is present and satisfies
    the comparison, and the ordering field is present. *)
Definition matches (q : Query) (doc : Doc) : Prop :=
  match q_where q with
  | None => True
  | Some (f, op, bound) =>
      match fieldValue f doc.2 with
      | Some v => whereHolds op v bound
      | None => False
      end
  end /\
  match q_orderBy q with
  | None => True
  | Some f => is_Some (fieldValue f doc.2)
  end.

Global Instance matches_dec q doc : Decision (matches q doc).
Proof.
  unfold matches.
  destruct (q_where q) as [[[f op] bound]|], (q_orderBy q) as [g|];
    try destruct (fieldValue f doc.2); apply _.
Defined.

(** Firestore orders a result by the [orderBy] field, or else by the field
    of the inequality filter, ascending, and then by document id. *)
Definition sortField (q : Query) : option FieldPath :=
  match q_orderBy q with
  | Some f => Some f
  | None =>
      match q_where q with
      | Some (f, _, _) => Some f
      | None => None
      end
  end.

Definition epoch : Timestamp := {| seconds := 0; nanoseconds := 0 |}.

Definition sortKey (sf : option FieldPath) (doc : Doc) : Timestamp * string :=
  (default epoch (sf ≫= fun f => fieldValue f doc.2), doc.1).

Definition key_le (a b : Timestamp * string) : Prop :=
  ts_lt a.1 b.1 \/ (a.1 = b.1 /\ String.le a.2 b.2).

Definition key_lt (a b : Timestamp * string) : Prop :=
  ts_lt a.1 b.1 \/ (a.1 = b.1 /\ String.le a.2 b.2 /\ a.2 <> b.2).

Global Instance key_le_dec : RelDecision key_le.
Proof. intros a b. unfold key_le. apply _. Defined.

Global Instance key_lt_dec : RelDecision key_lt.
Proof. intros a b. unfold key_lt. apply _. Defined.

Definition doc_le (sf : option FieldPath) (a b : Doc) : Prop :=
  key_le (sortKey sf a) (sortKey sf b).

Global Instance doc_le_dec sf : RelDecision (doc_le sf).
Proof. intros a b. unfold doc_le. apply _. Defined.

(** All matching documents in the order Firestore returns them. *)
Definition fetchOrder (db : gmap string VocabData) (q : Query) : list Doc :=
  merge_sort (doc_le (sortField q)) (filter (matches q) (map_to_list db)).

(** The documents of a query snapshot: the first [limit] matches. *)
Definition runQuery (db : gmap string VocabData) (q : Query) : list Doc :=
  take (q_limit q) (fetchOrder db q).

(** The Firestore service as the client sees it: the [vocabulary]
    collection, and whether reads currently succeed. *)
Record Firestore := {
  vocabulary : gmap string VocabData;
  reachable : bool
}.

Definition online (db : gmap string VocabData) : Firestore :=
  {| vocabulary := db; reachable := true |}.

(** [await getDocs(q)]; the promise rejects when the store cannot be
    read. *)
Definition getDocs (fs : Firestore) (q : Query) : Settled (list Doc) :=
  if reachable fs then Resolved (runQuery (vocabulary fs) q)
  else Rejected {| code := Some "unavailable";
                   errorMessage := "Failed to get documents" |}.

(** ** IntervalPolicy *)

(** Modelled from the spec: the [outcome] argument of the interval policy,
    which the [evaluate_answer] cloud function (not part of the client
    sources) builds from the learner's difficulty flag and the judge's
    evaluation. *)
Record Outcome := {
  o_hadDifficulty : bool;
  o_fluent : bool;
  o_hasFillers : bool;
  o_minimalUsage : bool
}.

(** Modelled from the spec: the interval policy runs inside the
    [evaluate_answer] cloud function, which is not part of the client
    sources; only the shape of its interval table ([ReviewIntervals]) is.
    [SUCCESS_SEQUENCE] is the 1h, 4h, 1d, 3d, 7d progression. *)
Definition SUCCESS_SEQUENCE : list Z :=
  INITIAL intervals ++ SUBSEQUENT intervals.

(** Modelled from the spec: [SUCCESS_SEQUENCE[progressCount]], reusing the
    last entry once [progressCount >= length SUCCESS_SEQUENCE]. *)
Definition successOffset (progressCount : nat) : Z :=
  if decide (length SUCCESS_SEQUENCE <= progressCount)%nat
  then default 0 (last SUCCESS_SEQUENCE)
  else default 0 (SUCCESS_SEQUENCE !! progressCount).

(** Modelled from the spec: [nextState(outcome, progressCount)], first
    matching rule wins. *)
Definition nextState (o : Outcome) (progressCount : nat) : Z * nat :=
  if o_hadDifficulty o then (IMMEDIATE intervals, 0%nat)
  else if negb (o_fluent o) || o_hasFillers o then (SHORT intervals, 0%nat)
  else if o_minimalUsage o then (MEDIUM intervals, 0%nat)
  else (successOffset progressCount, S progressCount).

(** The outcome of rule 4: no difficulty, fluent, no fillers, full usage. *)
Definition fullSuccess : Outcome :=
  {| o_hadDifficulty := false; o_fluent := true;
     o_hasFillers := false; o_minimalUsage := false |}.

(** Offsets produced by [n] consecutive full successes starting from
    [progressCount], together with the count reached at the end. *)
Fixpoint successRun (n : nat) (progressCount : nat) : list Z * nat :=
  match n with
  | O => ([], progressCount)
  | S n' =>
      let '(offset, p') := nextState fullSuccess progressCount in
      let '(rest, final) := successRun n' p' in
      (offset :: rest, final)
  end.

(** ** ReviewQueueSelector: the selection of [fetchNextVocab] *)

(** [where(nextReviewField, '<=', now), limit(50)] *)
Definition dueQuery (l : Language) (now : Timestamp) : Query :=
  {| q_where := Some (nextReviewField l, op_le, now);
     q_orderBy := None;
     q_limit := 50 |}.

(** [orderBy('timestamp'), limit(50)] *)
Definition newQuery : Query :=
  {| q_where := None;
     q_orderBy := Some timestampField;
     q_limit := 50 |}.

(** [where(nextReviewField, '>', now), orderBy(nextReviewField), limit(1)] *)
Definition nextQuery (l : Language) (now : Timestamp) : Query :=
  {| q_where := Some (nextReviewField l, op_gt, now);
     q_orderBy := Some (nextReviewField l);
     q_limit := 1 |}.

(** [data[masteredField] !== true] *)
Definition notMastered (l : Language) (doc : Doc) : Prop :=
  masteredOf l doc.2 <> Some true.

(** [!(nextReviewField in data) && data[masteredField] !== true] *)
Definition isNewWord (l : Language) (doc : Doc) : Prop :=
  nextReviewOf l doc.2 = None /\ masteredOf l doc.2 <> Some true.

Global Instance notMastered_dec l doc : Decision (notMastered l doc).
Proof. unfold notMastered. apply _. Defined.

Global Instance isNewWord_dec l doc : Decision (isNewWord l doc).
Proof. unfold isNewWord. apply _. Defined.

(** [Math.ceil(x / y)] for a positive [y]. *)
Definition ceilDiv (x y : Z) : Z := - ((- x) / y).

(** [Math.ceil((nextReviewTime.toMillis() - now.toMillis()) / (1000 * 60))];
    both numerator and denominator are scaled by [MS_TO_NANOS]. *)
Definition minutesUntilNext (nextReviewTime now : Timestamp) : Z :=
  ceilDiv (toNanos nextReviewTime - toNanos now) (1000 * 60 * MS_TO_NANOS).

(** The result of a selection: an item to present, or none with an
    optional number of minutes until the next review. *)
Inductive Selection :=
  | Due (doc : Doc)
  | NoneAvailable (etaMinutes : option Z).

(** The three queries of [fetchNextVocab] and what it does with their
    snapshots; [Resolved] is the normal completion of its [try] block and
    [Rejected] an exception reaching its [catch]. *)
Definition selectNext (fs : Firestore) (l : Language) (now : Timestamp)
    : Settled Selection :=
  await snapshot <- getDocs fs (dueQuery l now) ;;
  match filter (notMastered l) snapshot with
  | doc :: _ => Resolved (Due doc)
  | [] =>
      await snapshot <- getDocs fs newQuery ;;
      match filter (isNewWord l) snapshot with
      | newWord :: _ => Resolved (Due newWord)
      | [] =>
          await nextSnapshot <- getDocs fs (nextQuery l now) ;;
          match filter (notMastered l) nextSnapshot with
          | doc :: _ =>
              match nextReviewOf l doc.2 with
              | Some nextReviewTime =>
                  Resolved
                    (NoneAvailable (Some (minutesUntilNext nextReviewTime now)))
              | None =>
                  Rejected (Error "Cannot read properties of undefined")
              end
          | [] => Resolved (NoneAvailable None)
          end
      end
  end.

(** ** The state of the [App] component *)

(** [QuestionData] of [types.ts]. *)
Record QuestionData := {
  question : string;
  audio : string;
  word : string;
  requires_alternative : bool;
  target_word : string
}.

Record AppState := {
  language : Language;
  currentVocab : option Doc;
  currentQuestion : option QuestionData;
  userInput : string;
  hadDifficulty : bool;
  message : string;
  isLoading : bool;
  user : option User;
  evaluation : option AnswerEvaluation;
  nextReview : option Timestamp;
  selectedReviewTime : option Timestamp
}.

Definition setMessage (msg : string) (st : AppState) : AppState :=
  {| language := language st; currentVocab := currentVocab st;
     currentQuestion := currentQuestion st; userInput := userInput st;
     hadDifficulty := hadDifficulty st; message := msg;
     isLoading := isLoading st; user := user st;
     evaluation := evaluation st; nextReview := nextReview st;
     selectedReviewTime := selectedReviewTime st |}.

Definition setIsLoading (b : bool) (st : AppState) : AppState :=
  {| language := language st; currentVocab := currentVocab st;
     currentQuestion := currentQuestion st; userInput := userInput st;
     hadDifficulty := hadDifficulty st; message := message st;
     isLoading := b; user := user st;
     evaluation := evaluation st; nextReview := nextReview st;
     selectedReviewTime := selectedReviewTime st |}.

Definition setCurrentVocab (v : option Doc) (st : AppState) : AppState :=
  {| language := language st; currentVocab := v;
     currentQuestion := currentQuestion st; userInput := userInput st;
     hadDifficulty := hadDifficulty st; message := message st;
     isLoading := isLoading st; user := user st;
     evaluation := evaluation st; nextReview := nextReview st;
     selectedReviewTime := selectedReviewTime st |}.

Definition setCurrentQuestion (q : option QuestionData) (st : AppState)
    : AppState :=
  {| language := language st; currentVocab := currentVocab st;
     currentQuestion := q; userInput := userInput st;
     hadDifficulty := hadDifficulty st; message := message st;
     isLoading := isLoading st; user := user st;
     evaluation := evaluation st; nextReview := nextReview st;
     selectedReviewTime := selectedReviewTime st |}.

Definition setEvaluation (e : option AnswerEvaluation) (st : AppState)
    : AppState :=
  {| language := language st; currentVocab := currentVocab st;
     currentQuestion := currentQuestion st; userInput := userInput st;
     hadDifficulty := hadDifficulty st; message := message st;
     isLoading := isLoading st; user := user st;
     evaluation := e; nextReview := nextReview st;
     selectedReviewTime := selectedReviewTime st |}.

Definition setNextReview (t : option Timestamp) (st : AppState) : AppState :=
  {| language := language st; currentVocab := currentVocab st;
     currentQuestion := currentQuestion st; userInput := userInput st;
     hadDifficulty := hadDifficulty st; message := message st;
     isLoading := isLoading st; user := user st;
     evaluation := evaluation st; nextReview := t;
     selectedReviewTime := selectedReviewTime st |}.

(** [fetchNextVocab]: the state after the function has run to its end. *)
Definition fetchNextVocab (st : AppState) (fs : Firestore) (now : Timestamp)
    : AppState :=
  match user st with
  | None => setMessage "Please sign in to continue" st
  | Some _ =>
      let st :=
        setCurrentQuestion None
          (setNextReview None (setEvaluation None (setIsLoading true st))) in
      setIsLoading false
        match selectNext fs (language st) now with
        | Resolved (Due doc) => setMessage "" (setCurrentVocab (Some doc) st)
        | Resolved (NoneAvailable (Some minutes)) =>
            setCurrentVocab None
              (setMessage
                 ("Next review available in " +:+ pretty minutes
                    +:+ " minutes") st)
        | Resolved (NoneAvailable None) =>
            setCurrentVocab None (setMessage "No vocabulary available" st)
        | Rejected _ => setMessage "Error fetching vocabulary" st
        end
  end.

(** ** SchedulerService: the cloud functions behind [scheduler.ts] *)

Definition NotFound : JsError :=
  {| code := Some "NotFound"; errorMessage := "Document not found" |}.

(** [t] moved forward by a number of minutes. *)
Definition addMinutes (t : Timestamp) (minutes : Z) : Timestamp :=
  {| seconds := seconds t + 60 * minutes; nanoseconds := nanoseconds t |}.

(** Modelled from the spec: [submitEvaluation(itemId, language, outcome,
    now)] of the [evaluate_answer] function, which is not part of the
    client sources. It reads the track's progress count, applies the
    interval policy, and writes [nextDueAt = now + offset] and the new
    count; an unknown item is [NotFound]. *)
Definition submitEvaluation (db : gmap string VocabData) (itemId : string)
    (l : Language) (o : Outcome) (now : Timestamp)
    : Settled (gmap string VocabData * Timestamp) :=
  match db !! itemId with
  | None => Rejected NotFound
  | Some d =>
      let '(offset, progress) := nextState o (progressOf l d) in
      let due := addMinutes now offset in
      Resolved
        (<[itemId := set_progress l progress (set_nextReview l (Some due) d)]> db,
         due)
  end.

(** Modelled from the spec: [overrideReviewTime(itemId, language,
    explicitTimestamp)] of the [update_review_time] function, which is not
    part of the client sources. It sets [nextDueAt] directly and returns
    the confirmed timestamp; an unknown item is [NotFound]. *)
Definition overrideReviewTime (db : gmap string VocabData) (itemId : string)
    (l : Language) (explicitTimestamp : Timestamp)
    : Settled (gmap string VocabData * Timestamp) :=
  match db !! itemId with
  | None => Rejected NotFound
  | Some d =>
      Resolved
        (<[itemId := set_nextReview l (Some explicitTimestamp) d]> db,
         explicitTimestamp)
  end.

(** Modelled from the spec: [setMastered(itemId, language, mastered)] of
    the [mark_word_mastered] function, which is not part of the client
    sources. It toggles the flag only; an unknown item is [NotFound]. *)
Definition setMastered (db : gmap string VocabData) (itemId : string)
    (l : Language) (mastered : bool) : Settled (gmap string VocabData) :=
  match db !! itemId with
  | None => Rejected NotFound
  | Some d => Resolved (<[itemId := set_mastered l (Some mastered) d]> db)
  end.

(** ** The HTTP calls of [scheduler.ts] and [questions.ts] *)







(** The text of [date.toISOString().split('.')[0]], given by the whole
    seconds since the epoch that it denotes. *)
Definition IsoString : Type := Z.

(** What [await fetch(..)] yields: the promise rejects (no connection, or
    an abort), or there is a response, which is [ok] with its JSON value
    or not [ok] with its status text and, if its body parses, the [error]
    property of that body. *)
Inductive FetchResult (A : Type) : Type :=
  | FetchRejected (reason : JsError)
  | FetchNotOk (statusText : string) (errorBody : option (option string))
  | FetchOk (json : A).
Arguments FetchRejected {A} reason.
Arguments FetchNotOk {A} statusText errorBody.
Arguments FetchOk {A} json.

(** [error.error || response.statusText], where [error] is the parsed body
    or [{ error: 'Unknown error' }] when parsing fails. *)
Definition errorText (statusText : string) (errorBody : option (option string))
    : string :=
  match errorBody with
  | None => "Unknown error"
  | Some (Some e) => if decide (e = "") then statusText else e
  | Some None => statusText
  end.

(** The common shape of the functions of [scheduler.ts]: throw on a
    response that is not ok, else return its JSON value. *)
Definition checkedJson {A} (failure : string) (r : FetchResult A) : Settled A :=
  match r with
  | FetchRejected e => Rejected e
  | FetchNotOk statusText errorBody =>
      Rejected (Error (failure +:+ ": " +:+ errorText statusText errorBody))
  | FetchOk json => Resolved json
  end.


Definition markWordMastered (r : FetchResult bool) : Settled bool :=
  checkedJson "Failed to mark word as mastered" r.

Definition updateReviewTime (r : FetchResult Timestamp) : Settled Timestamp :=
  checkedJson "Failed to update review time" r.


(** Modelled from the spec: the cloud functions as HTTP endpoints over the
    store (they are not part of the client sources). A failed operation
    answers with a response that is not ok and leaves the store as it was
    (every mutation is all-or-nothing). *)
Definition endpoint {A} (db : gmap string VocabData)
    (r : Settled (gmap string VocabData * A))
    : gmap string VocabData * FetchResult A :=
  match r with
  | Resolved (db', a) => (db', FetchOk a)
  | Rejected e => (db, FetchNotOk "Not Found" (Some (Some (errorMessage e))))
  end.

(** Modelled from the spec: the [update_review_time] endpoint, which is
    not part of the client sources: [overrideReviewTime] at the time the
    text names. *)
Definition update_review_time (db : gmap string VocabData) (docId : string)
    (l : Language) (newReviewTime : IsoString)
    : gmap string VocabData * FetchResult Timestamp :=
  endpoint db
    (overrideReviewTime db docId l
       {| seconds := newReviewTime; nanoseconds := 0 |}).

(** Modelled from the spec: the [mark_word_mastered] endpoint, which is
    not part of the client sources: [setMastered], answering
    [{ success: true }]. *)
Definition mark_word_mastered (db : gmap string VocabData) (docId : string)
    (l : Language) (mastered : bool)
    : gmap string VocabData * FetchResult bool :=
  endpoint db
    (await db' <- setMastered db docId l mastered ;; Resolved (db', true)).


(** What becomes of one request on its way: it is answered; or it never
    reaches the cloud function, which then does not run; or the function
    runs and its response does not come back. In the last two cases the
    promise of [fetch] rejects. *)
Inductive Delivery := Delivered | RequestLost | ResponseLost.

(** [await fetch(..)] for a request that goes the way [d] to the function
    [serve] behind the URL. *)
Definition deliver {A} (d : Delivery) (db : gmap string VocabData)
    (serve : gmap string VocabData -> gmap string VocabData * FetchResult A)
    : gmap string VocabData * FetchResult A :=
  match d with
  | Delivered => serve db
  | RequestLost => (db, FetchRejected (Error "Failed to fetch"))
  | ResponseLost => ((serve db).1, FetchRejected (Error "Failed to fetch"))
  end.

(** ** Handlers of the [App] component *)


(** [date.toISOString().split('.')[0]]: the date and time of day down to
    the second. *)
Definition isoStringWithoutMillis (date : Z) : IsoString := date / 1000.



(** The time zone of the browser as [Date] sees it (the abstract
    operations LocalTime and UTC of ECMA-262): [LocalTime t] is the local
    time value of the moment [t], and [UTC lt] is the moment that the local
    time value [lt] stands for. Where the clocks are put back, a local time
    occurs twice, and [UTC] reads it with the offset in force before the
    change. *)
Record TimeZone := {
  LocalTime : Z -> Z;
  UTC : Z -> Z
}.

(** [date.setMinutes(date.getMinutes() + minutes)] on the [Date] of the
    moment [t]: the fields are those of the local time of [t], the minutes
    field grows by [minutes] (an overflow is carried into the hours and
    days), and the local time so made is read back as a moment. *)
Definition addLocalMinutes (tz : TimeZone) (t : Z) (minutes : Z) : Z :=
  UTC tz (LocalTime tz t + minutes * 60 * 1000).

(** The click handler of the mastered-words list (unmark as mastered) for
    the document [wordId], in the time zone [tz], where [new Date()] is
    [now] (milliseconds), run against the store behind the cloud
    functions; its two requests go the ways [first] and [second]. The
    refresh of the word lists that ends the handler only reads the store
    and is left out. *)
Definition onUnmarkMastered (st : AppState) (db : gmap string VocabData)
    (wordId : string) (tz : TimeZone) (now : Z) (first second : Delivery)
    : AppState * gmap string VocabData :=
  let failed db := (setIsLoading false (setMessage "Error unmarking word" st), db) in
  let '(db1, response) :=
    deliver first db
      (fun db => mark_word_mastered db wordId (language st) false) in
  match markWordMastered response with
  | Rejected _ => failed db1
  | Resolved _ =>
      let date := addLocalMinutes tz now 5 in
      let isoString := isoStringWithoutMillis date in
      let '(db2, response) :=
        deliver second db1
          (fun db => update_review_time db wordId (language st) isoString) in
      match updateReviewTime response with
      | Rejected _ => failed db2
      | Resolved _ => (setIsLoading false st, db2)
      end
  end.







(** ** Sign-in: [auth.ts] *)

Definition ALLOWED_EMAIL : string := "wzhybrid@gmail.com".

(** What [await signInWithPopup(auth, provider)] yields: a signed-in user,
    who becomes the current user of [auth], or an error. *)
Inductive PopupResult :=
  | PopupUser (u : User)
  | PopupError (e : JsError).

(** [toLowerCase] on the letters A to Z; no other character becomes a
    character of [ALLOWED_EMAIL] when its case is lowered. *)
Definition lowerAscii (c : Ascii.ascii) : Ascii.ascii :=
  let n := Ascii.N_of_ascii c in
  if decide (65 <= n <= 90)%N then Ascii.ascii_of_N (n + 32) else c.

Fixpoint toLowerCase (s : string) : string :=
  match s with
  | EmptyString => EmptyString
  | String c s' => String (lowerAscii c) (toLowerCase s')
  end.

(** The [catch] block of the revision that compares the email as it is:
    popup errors get a message of their own, any other error is thrown
    again. *)
Definition rethrow (e : JsError) : JsError :=
  if decide (code e = Some "auth/popup-blocked")
  then Error "Please allow popups for this site"
  else if decide (code e = Some "auth/cancelled-popup-request")
  then Error "Sign in was cancelled"
  else if decide (code e = Some "auth/popup-closed-by-user")
  then Error "Sign in window was closed"
  else e.

(** [signIn] of the revision that compares the email as it is. It takes
    the current user of [auth] and returns the current user afterwards
    with the settled result. It signs out first, so a popup that fails
    leaves nobody signed in. *)
Definition signIn (session : option User) (popup : PopupResult)
    : option User * Settled User :=
  let signedOut : option User := None in
  match popup with
  | PopupUser u =>
      if decide (email u = Some ALLOWED_EMAIL)
      then (Some u, Resolved u)
      else (signedOut,
            Rejected (rethrow (Error "Please sign in with wzhybrid@gmail.com")))
  | PopupError e => (signedOut, Rejected (rethrow e))
  end.

(** [signIn] of the revision that compares the email in lower case; its
    [catch] block throws the error again as it is, and a popup that fails
    leaves the current user as it was. *)
Definition signIn_lowercase (session : option User) (popup : PopupResult)
    : option User * Settled User :=
  match popup with
  | PopupUser u =>
      if decide (toLowerCase <$> email u = Some ALLOWED_EMAIL)
      then (Some u, Resolved u)
      else (None, Rejected (Error "Please sign in with wzhybrid@gmail.com"))
  | PopupError e => (session, Rejected e)
  end.

(** ** The word lists of the [App] component: [fetchWordLists] *)

(** [orderBy(nextReviewField), limit(50)] *)
Definition scheduledQuery (l : Language) : Query :=
  {| q_where := None;
     q_orderBy := Some (nextReviewField l);
     q_limit := 50 |}.

(** [nextReviewField in data && data[masteredField] !== true] *)
Definition isScheduledWord (l : Language) (doc : Doc) : Prop :=
  is_Some (nextReviewOf l doc.2) /\ masteredOf l doc.2 <> Some true.

Global Instance isScheduledWord_dec l doc : Decision (isScheduledWord l doc).
Proof. unfold isScheduledWord. apply _. Defined.

(** [where(masteredField, '==', true)] *)
Definition isMastered (l : Language) (doc : Doc) : Prop :=
  masteredOf l doc.2 = Some true.

Global Instance isMastered_dec l doc : Decision (isMastered l doc).
Proof. unfold isMastered. apply _. Defined.

(** The descending order of [orderBy('timestamp', 'desc')]: creation time
    from the latest to the earliest, then document id downwards. *)
Definition doc_ge (sf : option FieldPath) (a b : Doc) : Prop := doc_le sf b a.

Global Instance doc_ge_dec sf : RelDecision (doc_ge sf).
Proof. intros a b. unfold doc_ge. apply _. Defined.

(** The documents of
    [where(masteredField, '==', true), orderBy('timestamp', 'desc'),
    limit(50)]. *)
Definition masteredSnapshot (db : gmap string VocabData) (l : Language)
    : list Doc :=
  take 50
    (merge_sort (doc_ge (Some timestampField))
       (filter (isMastered l) (map_to_list db))).

Definition getMasteredDocs (fs : Firestore) (l : Language)
    : Settled (list Doc) :=
  if reachable fs then Resolved (masteredSnapshot (vocabulary fs) l)
  else Rejected {| code := Some "unavailable";
                   errorMessage := "Failed to get documents" |}.

(** The three lists of the word list modal. *)
Record WordLists := {
  scheduledWords : list Doc;
  newWords : list Doc;
  masteredWords : list Doc
}.

(** The body of the [try] block of [fetchWordLists]. *)
Definition queryWordLists (fs : Firestore) (l : Language) : Settled WordLists :=
  await scheduledSnapshot <- getDocs fs (scheduledQuery l) ;;
  await masteredDocs <- getMasteredDocs fs l ;;
  await newWordsSnapshot <- getDocs fs newQuery ;;
  Resolved
    {| scheduledWords := filter (isScheduledWord l) scheduledSnapshot;
       newWords := filter (isNewWord l) newWordsSnapshot;
       masteredWords := masteredDocs |}.

(** [fetchWordLists]: the state and the lists after the function has run
    to its end, given the lists shown before. *)
Definition fetchWordLists (st : AppState) (lists : WordLists) (fs : Firestore)
    : AppState * WordLists :=
  match user st with
  | None => (st, lists)
  | Some _ =>
      match queryWordLists fs (language st) with
      | Resolved fetched => (setIsLoading false st, fetched)
      | Rejected _ =>
          (setIsLoading false (setMessage "Error fetching word lists" st),
           lists)
      end
  end.

(** Whether the review time of a document is present and not after now. *)
Definition isDueAt (l : Language) (now : Timestamp) (doc : Doc) : Prop :=
  match nextReviewOf l doc.2 with
  | Some t => ts_le t now
  | None => False
  end.

Global Instance isDueAt_dec l now doc : Decision (isDueAt l now doc).
Proof. unfold isDueAt. destruct (nextReviewOf l doc.2); apply _. Defined.

(** ** More handlers of the [App] component *)

Definition setUserInput (s : string) (st : AppState) : AppState :=
  {| language := language st; currentVocab := currentVocab st;
     currentQuestion := currentQuestion st; userInput := s;
     hadDifficulty := hadDifficulty st; message := message st;
     isLoading := isLoading st; user := user st;
     evaluation := evaluation st; nextReview := nextReview st;
     selectedReviewTime := selectedReviewTime st |}.

Definition setHadDifficulty (b : bool) (st : AppState) : AppState :=
  {| language := language st; currentVocab := currentVocab st;
     currentQuestion := currentQuestion st; userInput := userInput st;
     hadDifficulty := b; message := message st;
     isLoading := isLoading st; user := user st;
     evaluation := evaluation st; nextReview := nextReview st;
     selectedReviewTime := selectedReviewTime st |}.

Definition setSelectedReviewTime (t : option Timestamp) (st : AppState)
    : AppState :=
  {| language := language st; currentVocab := currentVocab st;
     currentQuestion := currentQuestion st; userInput := userInput st;
     hadDifficulty := hadDifficulty st; message := message st;
     isLoading := isLoading st; user := user st;
     evaluation := evaluation st; nextReview := nextReview st;
     selectedReviewTime := t |}.

Definition setUser (u : option User) (st : AppState) : AppState :=
  {| language := language st; currentVocab := currentVocab st;
     currentQuestion := currentQuestion st; userInput := userInput st;
     hadDifficulty := hadDifficulty st; message := message st;
     isLoading := isLoading st; user := u;
     evaluation := evaluation st; nextReview := nextReview st;
     selectedReviewTime := selectedReviewTime st |}.

(** The click handler of the Mastered button, given what the [fetch] of
    [markWordMastered] yields and the store as [fetchNextVocab] then reads
    it. *)
Definition onMarkMastered (st : AppState) (response : FetchResult bool)
    (fs : Firestore) (now : Timestamp) : AppState :=
  match currentVocab st with
  | None => st
  | Some _ =>
      let st := setIsLoading true st in
      setIsLoading false
        match markWordMastered response with
        | Resolved _ =>
            fetchNextVocab
              (setCurrentQuestion None
                 (setCurrentVocab None
                    (setSelectedReviewTime None
                       (setNextReview None
                          (setEvaluation None
                             (setHadDifficulty false
                                (setUserInput ""
                                   (setMessage "Word marked as mastered"
                                      st))))))))
              fs now
        | Rejected _ => setMessage "Error marking word as mastered" st
        end
  end.

(** [error.message || "Authentication failed. Please refresh and try
    again."] *)
Definition signInFailureMessage (e : JsError) : string :=
  if decide (errorMessage e = "")
  then "Authentication failed. Please refresh and try again."
  else errorMessage e.

(** The callback the authentication effect registers with [onAuthChange],
    run for the auth state [u]; with nobody signed in it calls [signIn],
    whose popup yields [popup]. *)
Definition onAuthStateChanged (st : AppState) (u : option User)
    (popup : PopupResult) : AppState :=
  let st := setIsLoading false (setUser u st) in
  match u with
  | Some _ => st
  | None =>
      match (signIn u popup).2 with
      | Resolved _ => st
      | Rejected e => setMessage (signInFailureMessage e) st
      end
  end.

(** ** What a selection shows, and what it depends on *)

(** The fields of a document that the queries and filters for one language
    read: creation time, review time and mastered flag. *)
Definition trackView (l : Language) (d : VocabData)
    : Timestamp * option Timestamp * option bool :=
  (timestamp d, nextReviewOf l d, masteredOf l d).

(** A document that holds these fields of [d] and nothing else. *)
Definition eraseOthers (l : Language) (d : VocabData) : VocabData :=
  set_mastered l (masteredOf l d)
    (set_nextReview l (nextReviewOf l d)
       {| simplified := ""; mandarinText := ""; cantoneseText := "";
          timestamp := timestamp d;
          nextReviewMandarin := None; nextReviewCantonese := None;
          mastered_mandarin := None; mastered_cantonese := None;
          progress_mandarin := 0; progress_cantonese := 0 |}).

(** What the learner gets from a selection: the id of the item, or the
    ETA, or nothing when the read failed. *)
Definition outcomeOf (s : Settled Selection) : option (string + option Z) :=
  match s with
  | Resolved (Due doc) => Some (inl doc.1)
  | Resolved (NoneAvailable eta) => Some (inr eta)
  | Rejected _ => None
  end.

(** [f] applied to the data of the selected document. *)
Definition mapSelection (f : VocabData -> VocabData) (s : Settled Selection)
    : Settled Selection :=
  match s with
  | Resolved (Due doc) => Resolved (Due (prod_map id f doc))
  | other => other
  end.

(** The fields a query mentions. *)
Definition queryFields (q : Query) : list FieldPath :=
  match q_where q with Some (f, _, _) => [f] | None => [] end ++
  match q_orderBy q with Some f => [f] | None => [] end.

(** ** Sample stores *)

(** A document created at [created] (milliseconds) whose Mandarin track
    has the given review time (milliseconds) and mastered flag. *)
Definition sampleEntry (created : Z) (review : option Z) (m : option bool)
    : VocabData :=
  {| simplified := "w"; mandarinText := ""; cantoneseText := "";
     timestamp := fromMillis created;
     nextReviewMandarin := fromMillis <$> review;
     nextReviewCantonese := None;
     mastered_mandarin := m; mastered_cantonese := None;
     progress_mandarin := 0; progress_cantonese := 0 |}.

(** [n] mastered documents [m0], [m1], ..., the k-th one created at k ms
    and with its review set at k seconds. *)
Definition masteredBacklog (n : nat) : gmap string VocabData :=
  list_to_map
    ((fun k : nat =>
        ("m" +:+ pretty k,
         sampleEntry (Z.of_nat k) (Some (Z.of_nat k * 1000)) (Some true)))
       <$> seq 0 n).

Definition entryX : VocabData := sampleEntry 100 (Some 60000) None.
Definition entryY : VocabData := sampleEntry 101 (Some 61000) None.

(** Two documents that are due, not mastered. *)
Definition twoDue : gmap string VocabData :=
  <["x" := entryX]> (<["y" := entryY]> ∅).

(** The same two documents behind fifty mastered ones that were due
    earlier. *)
Definition starvedStore : gmap string VocabData :=
  <["x" := entryX]> (<["y" := entryY]> (masteredBacklog 50)).

(** A mastered document due in one minute and one that is not mastered,
    due in ten minutes, seen from second 100. *)
Definition upcomingStore : gmap string VocabData :=
  <["a" := sampleEntry 1 (Some 160000) (Some true)]>
    (<["b" := sampleEntry 2 (Some 700000) None]> ∅).

(** One document, mastered, whose review was due at second 40. *)
Definition masteredPast : gmap string VocabData :=
  <["w" := sampleEntry 1 (Some 40000) (Some true)]> ∅.

(** A signed-in session showing the document [w] of [masteredPast]. *)
Definition sampleState : AppState :=
  {| language := mandarin;
     currentVocab := Some ("w", sampleEntry 1 (Some 40000) (Some true));
     currentQuestion := None; userInput := ""; hadDifficulty := false;
     message := ""; isLoading := false;
     user := Some {| uid := "u1"; email := Some ALLOWED_EMAIL;
                     displayName := None |};
     evaluation := None; nextReview := None; selectedReviewTime := None |}.


(** An account whose email differs from the allowed one in case only. *)
Definition upperCaseUser : User :=
  {| uid := "u2"; email := Some "WZHYBRID@GMAIL.COM"; displayName := None |}.

(** Some other account. *)
Definition otherUser : User :=
  {| uid := "u3"; email := Some "someone@example.com"; displayName := None |}.

(** Two new documents, [n2] created before [n1], and a mastered one whose
    review was due at second 40. *)
Definition mixedStore : gmap string VocabData :=
  <["n1" := sampleEntry 5 None None]>
    (<["n2" := sampleEntry 3 None None]>
       (<["a" := sampleEntry 1 (Some 40000) (Some true)]> ∅)).

(** One document, not mastered, due at second 700. *)
Definition futureStore : gmap string VocabData :=
  <["f" := sampleEntry 1 (Some 700000) None]> ∅.

(** The word lists of [mixedStore] for Mandarin. *)
Definition mixedLists : WordLists :=
  {| scheduledWords := [];
     newWords := [("n2", sampleEntry 3 None None);
                  ("n1", sampleEntry 5 None None)];
     masteredWords := [("a", sampleEntry 1 (Some 40000) (Some true))] |}.

Definition sampleNow : Timestamp := fromMillis 100000.


(** A zone whose clocks are put back by one hour at the moment 0: until
    then local time is one hour ahead of UTC. The local times of the first
    hour after the change have occurred before, and are read with the
    earlier offset. *)
Definition fallBackZone : TimeZone :=
  {| LocalTime t := if decide (t < 0) then t + 3600000 else t;
     UTC lt := if decide (lt < 3600000) then lt - 3600000 else lt |}.



(** ** Auxiliary facts: the order of query results *)

Lemma ts_lt_irrefl a : ~ ts_lt a a.
Proof. unfold ts_lt. lia. Qed.

Lemma ts_lt_trans a b c : ts_lt a b -> ts_lt b c -> ts_lt a c.
Proof. unfold ts_lt. lia. Qed.

Lemma ts_lt_asym a b : ts_lt a b -> ~ ts_lt b a.
Proof. unfold ts_lt. lia. Qed.

Lemma ts_trichotomy a b : ts_lt a b \/ a = b \/ ts_lt b a.
Proof.
  destruct a as [sa na], b as [sb nb]. unfold ts_lt. simpl.
  destruct (Z.lt_trichotomy sa sb) as [?|[->|?]]; [lia| |lia].
  destruct (Z.lt_trichotomy na nb) as [?|[->|?]]; [lia| |lia].
  right. left. reflexivity.
Qed.

Lemma ts_le_lt_trans a b c : ts_le a b -> ts_lt b c -> ts_lt a c.
Proof. intros [?| ->] ?; eauto using ts_lt_trans. Qed.


Global Instance key_le_total : Total key_le.
Proof.
  intros [ta ia] [tb ib]. unfold key_le. simpl.
  destruct (ts_trichotomy ta tb) as [?|[->|?]];
    [by left; left| |by right; left].
  destruct (total String.le ia ib); [left|right]; right; done.
Qed.

Global Instance key_le_trans : Transitive key_le.
Proof.
  intros [ta ia] [tb ib] [tc ic]. unfold key_le. simpl.
  intros [Hab|[-> Hab]] [Hbc|[-> Hbc]].
  - left. eauto using ts_lt_trans.
  - by left.
  - by left.
  - right. split; [done|]. by etrans.
Qed.

Lemma key_lt_not_le a b : key_lt a b -> ~ key_le b a.
Proof.
  destruct a as [ta ia], b as [tb ib]. unfold key_lt, key_le. simpl.
  intros [Hlt|(-> & Hle & Hne)] [Hlt'|[Heq Hle']].
  - exact (ts_lt_asym _ _ Hlt Hlt').
  - subst. exact (ts_lt_irrefl _ Hlt).
  - exact (ts_lt_irrefl _ Hlt').
  - apply Hne. by apply (anti_symm String.le).
Qed.

Global Instance doc_le_total sf : Total (doc_le sf).
Proof. intros a b. unfold doc_le. apply (total key_le). Qed.

Global Instance doc_le_trans sf : Transitive (doc_le sf).
Proof. intros a b c. unfold doc_le. apply (transitivity (R := key_le)). Qed.

(** ** Auxiliary facts: query snapshots *)

Lemma elem_of_fetchOrder db q (doc : Doc) :
  doc ∈ fetchOrder db q <-> db !! doc.1 = Some doc.2 /\ matches q doc.
Proof.
  unfold fetchOrder. rewrite merge_sort_Permutation.
  rewrite list_elem_of_filter, (elem_of_map_to_list' db doc). tauto.
Qed.

Lemma fetchOrder_sorted db q :
  StronglySorted (doc_le (sortField q)) (fetchOrder db q).
Proof. apply StronglySorted_merge_sort; apply _. Qed.

Lemma fetchOrder_NoDup db q : NoDup (fetchOrder db q).
Proof.
  unfold fetchOrder. rewrite merge_sort_Permutation.
  apply NoDup_filter, NoDup_map_to_list.
Qed.

Lemma runQuery_fetchOrder db q (doc : Doc) :
  doc ∈ runQuery db q -> doc ∈ fetchOrder db q.
Proof.
  unfold runQuery. rewrite elem_of_take. intros (i & Hi & _).
  by eapply list_elem_of_lookup_2.
Qed.

Lemma elem_of_runQuery db q (doc : Doc) :
  doc ∈ runQuery db q -> db !! doc.1 = Some doc.2 /\ matches q doc.
Proof. intros H. by apply elem_of_fetchOrder, runQuery_fetchOrder. Qed.

Lemma runQuery_length db q : (length (runQuery db q) <= q_limit q)%nat.
Proof. unfold runQuery. rewrite length_take. lia. Qed.

Lemma filter_head_inv {A} (P : A -> Prop) `{!forall x, Decision (P x)}
    (l : list A) x rest :
  filter P l = x :: rest -> P x /\ x ∈ l.
Proof.
  intros Hf. apply (list_elem_of_filter P l x). rewrite Hf. left.
Qed.

Lemma filter_none {A} (P : A -> Prop) `{!forall x, Decision (P x)}
    (l : list A) :
  (forall x, x ∈ l -> ~ P x) -> filter P l = [].
Proof.
  intros Hl. destruct (filter P l) as [|x rest] eqn:E; [done|].
  apply filter_head_inv in E as [HP Hin]. by destruct (Hl x Hin).
Qed.

(** Unfolds the selection on a store that can be read, leaving the three
    filtered snapshots in place. *)
Ltac run_selection :=
  unfold selectNext, getDocs, online, andThen; cbn [reachable vocabulary].

(** A query whose matches all fit under its limit returns every match. *)
Lemma runQuery_complete db q :
  (length (fetchOrder db q) <= q_limit q)%nat -> runQuery db q = fetchOrder db q.
Proof. intros Hlen. unfold runQuery. by apply take_ge. Qed.

(** A document returned by the selection comes out of the due snapshot or
    out of the new snapshot, and passed the client's filter of that tier. *)
Lemma selectNext_Due_inv db l now doc :
  selectNext (online db) l now = Resolved (Due doc) ->
  (doc ∈ runQuery db (dueQuery l now) /\ notMastered l doc) \/
  (doc ∈ runQuery db newQuery /\ isNewWord l doc).
Proof.
  run_selection.
  destruct (filter (notMastered l) _) as [|d1 r1] eqn:E1.
  - destruct (filter (isNewWord l) _) as [|d2 r2] eqn:E2.
    + destruct (filter (notMastered l) (runQuery db (nextQuery l now)))
        as [|d3 r3]; [discriminate|].
      destruct (nextReviewOf l d3.2); discriminate.
    + intros [= <-]. right. apply filter_head_inv in E2. tauto.
  - intros [= <-]. left. apply filter_head_inv in E1. tauto.
Qed.

(** Every document of the upcoming snapshot has a review time, so the
    read of [data[nextReviewField]] finds a timestamp. *)
Lemma nextQuery_has_review db l now doc :
  doc ∈ runQuery db (nextQuery l now) ->
  exists t, nextReviewOf l doc.2 = Some t /\ ts_lt now t.
Proof.
  intros [_ [Hw _]]%elem_of_runQuery. simpl in Hw.
  destruct (nextReviewOf l doc.2) as [t|]; [eauto|done].
Qed.

(** [ceilDiv x y] is the least integer whose product with [y] reaches
    [x]. *)
Lemma ceilDiv_spec x y :
  0 < y -> y * (ceilDiv x y - 1) < x <= y * ceilDiv x y.
Proof.
  intros Hy. unfold ceilDiv.
  pose proof (Z.mul_div_le (- x) y Hy).
  pose proof (Z.mul_succ_div_gt (- x) y Hy).
  lia.
Qed.

(** On a store that can be read the selection always completes
    normally. *)
Lemma selectNext_resolves db l now :
  exists sel, selectNext (online db) l now = Resolved sel.
Proof.
  run_selection.
  destruct (filter (notMastered l) (runQuery db (dueQuery l now)));
    [|eauto].
  destruct (filter (isNewWord l) (runQuery db newQuery)); [|eauto].
  destruct (filter (notMastered l) (runQuery db (nextQuery l now)))
    as [|doc rest] eqn:E; [eauto|].
  apply filter_head_inv in E as [_ Hin].
  destruct (nextQuery_has_review db l now doc Hin) as (t & -> & _). eauto.
Qed.

(** When the due and the new tier yield nothing, the answer rests on the
    single first document of the upcoming order: its ETA if that document
    is not mastered, and no ETA otherwise. *)
Lemma selectNext_upcoming db l now :
  filter (notMastered l) (runQuery db (dueQuery l now)) = [] ->
  filter (isNewWord l) (runQuery db newQuery) = [] ->
  selectNext (online db) l now =
    Resolved (NoneAvailable
      match head (fetchOrder db (nextQuery l now)) with
      | Some doc =>
          if decide (notMastered l doc)
          then (fun t => minutesUntilNext t now) <$> nextReviewOf l doc.2
          else None
      | None => None
      end).
Proof.
  intros Hdue Hnew.
  run_selection. rewrite Hdue, Hnew.
  pose proof (nextQuery_has_review db l now) as Hrev.
  unfold runQuery in *. cbn [q_limit nextQuery] in *.
  destruct (fetchOrder db (nextQuery l now)) as [|doc rest]; [reflexivity|].
  change (take 1 (doc :: rest)) with [doc] in *.
  cbn [head]. rewrite filter_cons, filter_nil.
  destruct (Hrev doc) as (t & Ht & _); [left|].
  destruct (decide (notMastered l doc)); [|reflexivity].
  by rewrite Ht.
Qed.

(** ** Auxiliary facts: partial updates and time arithmetic *)







Lemma set_mastered_other l l' m d :
  l <> l' -> masteredOf l' (set_mastered l m d) = masteredOf l' d.
Proof. by destruct l, l'. Qed.

(** A full success recorded through the service: the track is due after
    the offset of its current count, and the count goes up by one. *)
Lemma submitEvaluation_fullSuccess db id l d now :
  db !! id = Some d ->
  submitEvaluation db id l fullSuccess now =
    Resolved
      (<[id := set_progress l (S (progressOf l d))
                 (set_nextReview l
                    (Some (addMinutes now (successOffset (progressOf l d)))) d)]>
         db,
       addMinutes now (successOffset (progressOf l d))).
Proof. intros Hd. unfold submitEvaluation. by rewrite Hd. Qed.


Lemma fromMillis_wf ms :
  ts_wf (fromMillis ms) /\ nanoseconds (fromMillis ms) mod MS_TO_NANOS = 0.
Proof.
  unfold ts_wf, fromMillis, NANOS_PER_SECOND, MS_TO_NANOS. simpl.
  pose proof (Z.mod_pos_bound ms 1000 eq_refl).
  split; [lia|]. by rewrite Z.mod_mul.
Qed.










(** ** Theorems *)

(** C1. Full successes at progress counts 0..6 give offsets
    60, 240, 1440, 4320, 10080, 10080, 10080 minutes; the lookup stays at
    the last entry from count 5 on, and every full success increments the
    count by one without clamping it. *)
Theorem C1_success_sequence :
  fst (successRun 7 0) = [60; 240; 1440; 4320; 10080; 10080; 10080] /\
  snd (successRun 7 0) = 7%nat /\
  (forall p, nextState fullSuccess p = (successOffset p, S p)) /\
  (forall k, successOffset (5 + k) = 10080).
Proof.
  split; [reflexivity|]. split; [reflexivity|]. split.
  - intros p. reflexivity.
  - intros k. unfold successOffset.
    destruct (decide _) as [_|Hlt]; [reflexivity|].
    exfalso. apply Hlt. cbn. lia.
Qed.

(** C2 as stated fails. In [starvedStore] the documents that are due and
    not mastered are [x] (due at second 60) and [y] (due at second 61),
    in this order, at second 100; the selection returns neither of them,
    because the fifty documents fetched by the due query are all
    mastered. *)
Lemma C2_counterexample :
  filter (notMastered mandarin)
    (fetchOrder starvedStore (dueQuery mandarin sampleNow))
    = [("x", entryX); ("y", entryY)] /\
  nextReviewOf mandarin entryX = Some (fromMillis 60000) /\
  nextReviewOf mandarin entryY = Some (fromMillis 61000) /\
  ts_lt (fromMillis 60000) (fromMillis 61000) /\
  ts_le (fromMillis 61000) sampleNow /\
  selectNext (online starvedStore) mandarin sampleNow
    = Resolved (NoneAvailable None) /\
  selectNext (online starvedStore) mandarin sampleNow
    <> Resolved (Due ("x", entryX)).
Proof.
  split; [vm_compute; reflexivity|].
  split; [reflexivity|]. split; [reflexivity|].
  split; [left; reflexivity|]. split; [left; left; reflexivity|].
  assert (H : selectNext (online starvedStore) mandarin sampleNow
              = Resolved (NoneAvailable None)) by (vm_compute; reflexivity).
  split; [exact H|]. rewrite H. discriminate.
Qed.

(** C2, amended. If a document of the store is due and not mastered in
    the language, comes before every other due, not mastered document in
    the order (review time, then id), and is among the at most 50
    documents that the due query fetches, then the selection returns
    it. *)
Theorem C2_earliest_due_first db l now id d T1 :
  db !! id = Some d ->
  nextReviewOf l d = Some T1 ->
  ts_le T1 now ->
  masteredOf l d <> Some true ->
  (forall id' d' T', db !! id' = Some d' -> id' <> id ->
     nextReviewOf l d' = Some T' -> ts_le T' now ->
     masteredOf l d' <> Some true -> key_lt (T1, id) (T', id')) ->
  (id, d) ∈ runQuery db (dueQuery l now) ->
  selectNext (online db) l now = Resolved (Due (id, d)).
Proof.
  intros Hd HT1 Hdue Hnm Hleast Hin.
  pose proof (fetchOrder_sorted db (dueQuery l now)) as Hsorted.
  pose proof (fetchOrder_NoDup db (dueQuery l now)) as Hnodup.
  rewrite <- (take_drop 50 (fetchOrder db (dueQuery l now))) in Hsorted, Hnodup.
  apply StronglySorted_app_1_l in Hsorted.
  apply NoDup_app in Hnodup as [Hnodup _].
  change (take 50 (fetchOrder db (dueQuery l now)))
    with (runQuery db (dueQuery l now)) in Hsorted, Hnodup.
  assert (Hsub : forall doc, doc ∈ runQuery db (dueQuery l now) ->
            db !! doc.1 = Some doc.2 /\
            exists T, nextReviewOf l doc.2 = Some T /\ ts_le T now).
  { intros doc [Hdoc [Hw _]]%elem_of_runQuery. split; [done|].
    simpl in Hw. destruct (nextReviewOf l doc.2) as [T|]; [eauto|done]. }
  destruct (list_elem_of_split _ _ Hin) as (l1 & l2 & Heq).
  rewrite Heq in Hsorted, Hnodup, Hsub.
  assert (Hl1 : filter (notMastered l) l1 = []).
  { apply filter_none. intros [id' d'] Hx Hxm. unfold notMastered in Hxm.
    simpl in Hxm.
    destruct (Hsub (id', d')) as [Hx1 (T' & HT' & Hdue')];
      [apply elem_of_app; by left|]. simpl in *.
    assert (Hne : id' <> id).
    { intros ->. assert (d' = d) as -> by congruence.
      apply NoDup_app in Hnodup as (_ & Hdisj & _).
      apply (Hdisj _ Hx). left. }
    specialize (Hleast id' d' T' Hx1 Hne HT' Hdue' Hxm).
    apply (key_lt_not_le _ _ Hleast).
    assert (Hle : doc_le (sortField (dueQuery l now)) (id', d') (id, d)).
    { eapply StronglySorted_app_1_elem_of; [exact Hsorted|exact Hx|left]. }
    unfold doc_le, sortKey in Hle. simpl in Hle.
    by rewrite HT', HT1 in Hle. }
  assert (Hf : filter (notMastered l) (runQuery db (dueQuery l now))
               = (id, d) :: filter (notMastered l) l2).
  { rewrite Heq, filter_app, Hl1, filter_cons_True by exact Hnm.
    reflexivity. }
  run_selection. rewrite Hf. reflexivity.
Qed.

Lemma C2_earliest_due_first_witness :
  selectNext (online twoDue) mandarin sampleNow
    = Resolved (Due ("x", entryX)).
Proof.
  apply (C2_earliest_due_first twoDue mandarin sampleNow "x" entryX
           (fromMillis 60000)).
  - reflexivity.
  - reflexivity.
  - left. left. reflexivity.
  - discriminate.
  - intros id' d' T' Hlook Hne HT' _ _. unfold twoDue in Hlook.
    rewrite lookup_insert_ne in Hlook by congruence.
    apply lookup_insert_Some in Hlook as [[<- <-]|[_ Hlook]].
    + injection HT' as <-. left. left. reflexivity.
    + rewrite lookup_empty in Hlook. discriminate.
  - vm_compute. left.
Defined.

(** C3 fails on [upcomingStore] at second 100. No document is due or new
    for Mandarin; [b] is not mastered and due in ten minutes, so the claim
    asks for [NoneAvailable (Some 10)]. The upcoming query fetches only
    [a], the mastered document due in one minute, the client filter drops
    it, and the selection reports no ETA at all. *)
Theorem C3_upcoming_eta_lost :
  filter (notMastered mandarin)
    (fetchOrder upcomingStore (dueQuery mandarin sampleNow)) = [] /\
  filter (isNewWord mandarin) (fetchOrder upcomingStore newQuery) = [] /\
  filter (notMastered mandarin)
    (fetchOrder upcomingStore (nextQuery mandarin sampleNow))
    = [("b", sampleEntry 2 (Some 700000) None)] /\
  minutesUntilNext (fromMillis 700000) sampleNow = 10 /\
  selectNext (online upcomingStore) mandarin sampleNow
    = Resolved (NoneAvailable None).
Proof. repeat split; vm_compute; reflexivity. Qed.

(** C4. Whatever the store, the language and the time, an item that the
    selection returns is a document of the store whose mastered field for
    that language is not [true], whether its review time is past or
    absent; and the client filter that decides this gives the same verdict
    on any two documents with the same mastered field, whatever their
    other fields hold. *)
Theorem C4_mastered_never_selected (fs : Firestore) l now doc :
  selectNext fs l now = Resolved (Due doc) ->
  vocabulary fs !! doc.1 = Some doc.2 /\
  masteredOf l doc.2 <> Some true /\
  (forall a b : Doc, masteredOf l a.2 = masteredOf l b.2 ->
     (notMastered l a <-> notMastered l b)).
Proof.
  intros Hsel. split; [|split].
  - destruct fs as [db [|]]; [|discriminate].
    change {| vocabulary := db; reachable := true |} with (online db) in Hsel.
    apply selectNext_Due_inv in Hsel as [[Hin _]|[Hin _]];
      by apply elem_of_runQuery in Hin as [Hdb _].
  - destruct fs as [db [|]]; [|discriminate].
    change {| vocabulary := db; reachable := true |} with (online db) in Hsel.
    by apply selectNext_Due_inv in Hsel as [[_ Hm]|[_ [_ Hm]]].
  - intros a b Hab. unfold notMastered. by rewrite Hab.
Qed.

Lemma C4_mastered_never_selected_witness :
  vocabulary (online twoDue) !! "x" = Some entryX /\
  masteredOf mandarin entryX <> Some true.
Proof.
  destruct (C4_mastered_never_selected (online twoDue) mandarin sampleNow
              ("x", entryX)) as (Hin & Hm & _).
  - vm_compute. reflexivity.
  - split; [exact Hin|exact Hm].
Defined.


(** Where the clocks have just been put back, the minutes are added in
    the repeated hour and read with the earlier offset: half an hour after
    the change the handler stores a review time 55 minutes before the
    click, and the item is selected at once. *)
Lemma unmark_in_repeated_hour :
  addLocalMinutes fallBackZone 1800000 5 = 1800000 - 55 * 60 * 1000 /\
  nextReviewOf mandarin <$>
    (onUnmarkMastered sampleState masteredPast "w" fallBackZone 1800000
       Delivered Delivered).2 !! "w"
    = Some (Some {| seconds := -1500; nanoseconds := 0 |}) /\
  exists d,
    selectNext
      (online (onUnmarkMastered sampleState masteredPast "w" fallBackZone
                 1800000 Delivered Delivered).2)
      mandarin (fromMillis 1800000) = Resolved (Due ("w", d)).
Proof.
  split; [reflexivity|]. split; [vm_compute; reflexivity|].
  eexists. vm_compute. reflexivity.
Qed.






(** C7. On a store that can be read, the selection for a corpus that is
    empty or entirely mastered in the language completes normally with
    [NoneAvailable] (without an ETA), and [fetchNextVocab] shows
    'No vocabulary available' with no current item. *)
Theorem C7_none_available_is_normal db l now :
  (db = ∅ \/ forall id d, db !! id = Some d -> masteredOf l d = Some true) ->
  selectNext (online db) l now = Resolved (NoneAvailable None) /\
  forall st, is_Some (user st) -> language st = l ->
    message (fetchNextVocab st (online db) now) = "No vocabulary available" /\
    currentVocab (fetchNextVocab st (online db) now) = None.
Proof.
  intros Hdb.
  assert (Hall : forall id d, db !! id = Some d -> masteredOf l d = Some true).
  { destruct Hdb as [->|H]; [|exact H]. intros id d. by rewrite lookup_empty. }
  assert (Hnone : forall q doc, doc ∈ runQuery db q -> ~ notMastered l doc).
  { intros q doc [Hin _]%elem_of_runQuery Hn. apply Hn. eauto. }
  assert (Hsel : selectNext (online db) l now = Resolved (NoneAvailable None)).
  { run_selection.
    rewrite (filter_none (notMastered l) (runQuery db (dueQuery l now)))
      by eauto.
    rewrite (filter_none (isNewWord l) (runQuery db newQuery)).
    2:{ intros doc Hin [_ Hn]. by apply (Hnone _ _ Hin). }
    rewrite (filter_none (notMastered l) (runQuery db (nextQuery l now)))
      by eauto.
    reflexivity. }
  split; [exact Hsel|].
  intros st [u Hu] <-. unfold fetchNextVocab. rewrite Hu. simpl.
  rewrite Hsel. split; reflexivity.
Qed.

Lemma C7_none_available_is_normal_witness :
  selectNext (online (masteredBacklog 3)) mandarin sampleNow
    = Resolved (NoneAvailable None) /\
  forall st, is_Some (user st) -> language st = mandarin ->
    message (fetchNextVocab st (online (masteredBacklog 3)) sampleNow)
      = "No vocabulary available" /\
    currentVocab (fetchNextVocab st (online (masteredBacklog 3)) sampleNow)
      = None.
Proof.
  apply (C7_none_available_is_normal (masteredBacklog 3) mandarin sampleNow).
  right.
  assert (Hall : map_Forall
            (fun (_ : string) d => masteredOf mandarin d = Some true)
            (masteredBacklog 3)).
  { refine (bool_decide_unpack _ _). vm_compute. exact I. }
  exact Hall.
Defined.







(** C10. The due tier and the new tier each look at no more than the
    first 50 documents of their query's order (review time, then id, for
    the documents with a review time not after now; creation time, then
    id, for all documents): a selected item stands at a position below 50
    of one of the two orders and passed the client's filter there, and a
    document that stands at position 50 or beyond in the order of its tier
    is never the selected item, whatever happens to the 50 before it. *)
Theorem C10_fifty_document_window db l now :
  (forall doc, selectNext (online db) l now = Resolved (Due doc) ->
     (exists i, (i < 50)%nat /\
        fetchOrder db (dueQuery l now) !! i = Some doc /\ notMastered l doc) \/
     (exists i, (i < 50)%nat /\
        fetchOrder db newQuery !! i = Some doc /\ isNewWord l doc)) /\
  (forall i doc, (50 <= i)%nat ->
     fetchOrder db (dueQuery l now) !! i = Some doc \/
     (fetchOrder db newQuery !! i = Some doc /\ nextReviewOf l doc.2 = None) ->
     selectNext (online db) l now <> Resolved (Due doc)).
Proof.
  assert (Hwin : forall doc,
    selectNext (online db) l now = Resolved (Due doc) ->
     (exists i, (i < 50)%nat /\
        fetchOrder db (dueQuery l now) !! i = Some doc /\ notMastered l doc) \/
     (exists i, (i < 50)%nat /\
        fetchOrder db newQuery !! i = Some doc /\ isNewWord l doc)).
  { intros doc [[Hin Hm]|[Hin Hn]]%selectNext_Due_inv;
      unfold runQuery in Hin; apply elem_of_take in Hin as (i & Hi & Hlt);
      [left|right]; exists i; simpl in Hlt; auto. }
  split; [exact Hwin|].
  intros i doc Hi Hpos Hsel.
  destruct (Hwin doc Hsel) as [(j & Hj & Hdue & _)|(j & Hj & Hnew & Hisnew)];
    destruct Hpos as [Hpos|[Hpos Hnone]].
  - pose proof (NoDup_lookup _ _ _ _ (fetchOrder_NoDup db _) Hdue Hpos). lia.
  - apply list_elem_of_lookup_2, elem_of_fetchOrder in Hdue as [_ [Hw _]].
    simpl in Hw. rewrite Hnone in Hw. done.
  - destruct Hisnew as [Hnone _].
    apply list_elem_of_lookup_2, elem_of_fetchOrder in Hpos as [_ [Hw _]].
    simpl in Hw. rewrite Hnone in Hw. done.
  - pose proof (NoDup_lookup _ _ _ _ (fetchOrder_NoDup db _) Hnew Hpos). lia.
Qed.

Lemma C10_fifty_document_window_witness :
  fetchOrder starvedStore (dueQuery mandarin sampleNow) !! 50%nat
    = Some ("x", entryX) /\
  selectNext (online starvedStore) mandarin sampleNow
    <> Resolved (Due ("x", entryX)).
Proof.
  assert (Hpos : fetchOrder starvedStore (dueQuery mandarin sampleNow) !! 50%nat
                 = Some ("x", entryX)) by (vm_compute; reflexivity).
  split; [exact Hpos|].
  apply (proj2 (C10_fifty_document_window starvedStore mandarin sampleNow)
           50%nat ("x", entryX)).
  - lia.
  - left. exact Hpos.
Defined.

(** ** Further facts: the order of snapshots *)

Lemma key_le_antisym a b : key_le a b -> key_le b a -> a = b.
Proof.
  destruct a as [ta ia], b as [tb ib]. unfold key_le. simpl.
  intros [Hab|[-> Hab]] [Hba|[Heq Hba]].
  - destruct (ts_lt_asym _ _ Hab Hba).
  - subst. destruct (ts_lt_irrefl _ Hab).
  - destruct (ts_lt_irrefl _ Hba).
  - f_equal. by apply (anti_symm String.le).
Qed.

Global Instance doc_le_refl sf : Reflexive (doc_le sf).
Proof. intros a. by destruct (total (doc_le sf) a a). Qed.

(** Two documents of one store that stand at the same place of an order
    are the same document. *)
Lemma doc_le_antisym_store (db : gmap string VocabData) sf (a b : Doc) :
  db !! a.1 = Some a.2 -> db !! b.1 = Some b.2 ->
  doc_le sf a b -> doc_le sf b a -> a = b.
Proof.
  intros Ha Hb Hab Hba.
  pose proof (key_le_antisym _ _ Hab Hba) as Hkey.
  unfold sortKey in Hkey. injection Hkey as _ Hid.
  destruct a as [ia da], b as [ib db']. simpl in *. subst ib.
  f_equal. congruence.
Qed.

(** The order of a query is the only sorted arrangement of its matches. *)
Lemma fetchOrder_unique db q (docs : list Doc) :
  StronglySorted (doc_le (sortField q)) docs ->
  NoDup docs ->
  (forall doc, doc ∈ docs <-> db !! doc.1 = Some doc.2 /\ matches q doc) ->
  docs = fetchOrder db q.
Proof.
  intros Hsorted Hnodup Helem.
  apply (StronglySorted_unique_strong (doc_le (sortField q)));
    [|done|apply fetchOrder_sorted|].
  - intros a b [Ha _]%Helem [Hb _]%elem_of_fetchOrder.
    by apply doc_le_antisym_store with db.
  - apply NoDup_Permutation; [done|apply fetchOrder_NoDup|].
    intros doc. by rewrite Helem, elem_of_fetchOrder.
Qed.

Lemma runQuery_sorted db q :
  StronglySorted (doc_le (sortField q)) (runQuery db q).
Proof.
  pose proof (fetchOrder_sorted db q) as Hsorted.
  rewrite <- (take_drop (q_limit q) (fetchOrder db q)) in Hsorted.
  by apply StronglySorted_app_1_l in Hsorted.
Qed.

(** In a sorted list, the first element that passes a filter comes before
    every other element that passes it. *)
Lemma filter_head_least {A} (R : relation A) `{!Reflexive R}
    (P : A -> Prop) `{!forall x, Decision (P x)} (l : list A) x rest :
  StronglySorted R l -> filter P l = x :: rest ->
  forall y, y ∈ l -> P y -> R x y.
Proof.
  intros Hsorted. revert x rest.
  induction Hsorted as [|a l Hl IH Ha]; intros x rest Hf y Hy HPy.
  - by apply elem_of_nil in Hy.
  - rewrite filter_cons in Hf. destruct (decide (P a)) as [HPa|HPa].
    + injection Hf as <- _. apply elem_of_cons in Hy as [->|Hy]; [done|].
      rewrite Forall_forall in Ha. by apply Ha.
    + apply elem_of_cons in Hy as [->|Hy]; [done|]. by eapply IH.
Qed.

Lemma fetchOrder_length db q : (length (fetchOrder db q) <= size db)%nat.
Proof.
  unfold fetchOrder. rewrite merge_sort_Permutation.
  rewrite <- length_map_to_list. apply length_filter.
Qed.

(** ** Further facts: the tiers of the selection *)

(** The due tier: when a fetched due document is not mastered, the
    selection returns the first such document of the snapshot. *)
Lemma selectNext_due_head db l now d0 :
  d0 ∈ runQuery db (dueQuery l now) -> notMastered l d0 ->
  exists doc t,
    selectNext (online db) l now = Resolved (Due doc) /\
    doc ∈ runQuery db (dueQuery l now) /\ notMastered l doc /\
    nextReviewOf l doc.2 = Some t /\ ts_le t now /\
    forall doc' t', doc' ∈ runQuery db (dueQuery l now) ->
      notMastered l doc' -> nextReviewOf l doc'.2 = Some t' ->
      key_le (t, doc.1) (t', doc'.1).
Proof.
  intros Hin Hnm.
  destruct (filter (notMastered l) (runQuery db (dueQuery l now)))
    as [|doc rest] eqn:E.
  { destruct (filter_nil_not_elem_of _ _ d0 E Hnm Hin). }
  pose proof (filter_head_inv _ _ _ _ E) as [Hdoc Hdin].
  pose proof (elem_of_runQuery _ _ _ Hdin) as [_ [Hw _]]. simpl in Hw.
  destruct (nextReviewOf l doc.2) as [t|] eqn:Ht; [|done].
  exists doc, t. split; [run_selection; by rewrite E|].
  do 4 (split; [done|]).
  intros doc' t' Hin' Hnm' Ht'.
  pose proof (filter_head_least _ _ _ _ _ (runQuery_sorted db _) E doc' Hin' Hnm')
    as Hle.
  unfold doc_le, sortKey in Hle. simpl in Hle. by rewrite Ht, Ht' in Hle.
Qed.

(** The new tier: when no fetched due document is unmastered, and a
    fetched document is new, the selection returns the first new document
    of the creation order snapshot. *)
Lemma selectNext_new_head db l now d0 :
  (forall doc, doc ∈ runQuery db (dueQuery l now) -> ~ notMastered l doc) ->
  d0 ∈ runQuery db newQuery -> isNewWord l d0 ->
  exists doc,
    selectNext (online db) l now = Resolved (Due doc) /\
    doc ∈ runQuery db newQuery /\ isNewWord l doc /\
    forall doc', doc' ∈ runQuery db newQuery -> isNewWord l doc' ->
      key_le (timestamp doc.2, doc.1) (timestamp doc'.2, doc'.1).
Proof.
  intros Hdue Hin Hnew.
  destruct (filter (isNewWord l) (runQuery db newQuery))
    as [|doc rest] eqn:E.
  { destruct (filter_nil_not_elem_of _ _ d0 E Hnew Hin). }
  pose proof (filter_head_inv _ _ _ _ E) as [Hdoc Hdin].
  exists doc. split.
  { run_selection. by rewrite (filter_none _ _ Hdue), E. }
  do 2 (split; [done|]).
  intros doc' Hin' Hnew'.
  exact (filter_head_least _ _ _ _ _ (runQuery_sorted db _) E doc' Hin' Hnew').
Qed.

(** The two ways a document gets selected: out of the due snapshot, or out
    of the creation order snapshot once the due snapshot holds nothing but
    mastered documents. *)
Lemma selectNext_Due_cases db l now doc :
  selectNext (online db) l now = Resolved (Due doc) ->
  (doc ∈ runQuery db (dueQuery l now) /\ notMastered l doc) \/
  (filter (notMastered l) (runQuery db (dueQuery l now)) = [] /\
   doc ∈ runQuery db newQuery /\ isNewWord l doc).
Proof.
  run_selection.
  destruct (filter (notMastered l) _) as [|d1 r1] eqn:E1.
  - destruct (filter (isNewWord l) _) as [|d2 r2] eqn:E2.
    + destruct (filter (notMastered l) (runQuery db (nextQuery l now)))
        as [|d3 r3]; [discriminate|].
      destruct (nextReviewOf l d3.2); discriminate.
    + intros [= <-]. right. apply filter_head_inv in E2. tauto.
  - intros [= <-]. left. apply filter_head_inv in E1. tauto.
Qed.

(** The way an ETA comes about: both tiers are empty and the one document
    of the upcoming snapshot is not mastered. *)
Lemma selectNext_eta_inv db l now m :
  selectNext (online db) l now = Resolved (NoneAvailable (Some m)) ->
  exists doc rest t,
    fetchOrder db (nextQuery l now) = doc :: rest /\
    notMastered l doc /\ nextReviewOf l doc.2 = Some t /\
    m = minutesUntilNext t now.
Proof.
  run_selection.
  destruct (filter (notMastered l) _) as [|d1 r1]; [|discriminate].
  destruct (filter (isNewWord l) _) as [|d2 r2]; [|discriminate].
  unfold runQuery. cbn [q_limit nextQuery].
  destruct (fetchOrder db (nextQuery l now)) as [|doc rest]; [discriminate|].
  change (take 1 (doc :: rest)) with [doc].
  rewrite filter_cons, filter_nil.
  destruct (decide (notMastered l doc)) as [Hnm|]; [|discriminate].
  destruct (nextReviewOf l doc.2) as [t|] eqn:Ht; [|discriminate].
  intros [= <-]. by exists doc, rest, t.
Qed.

Lemma ts_lt_toNanos a b :
  ts_wf a -> ts_wf b -> ts_lt a b -> toNanos a < toNanos b.
Proof. unfold ts_wf, ts_lt, toNanos, NANOS_PER_SECOND. nia. Qed.

Lemma app_cons_ne c s t : String c s +:+ t <> "".
Proof. intros H. discriminate H. Qed.

(** The messages [fetchNextVocab] leaves behind. *)
Lemma fetchNextVocab_message st fs now :
  message (fetchNextVocab st fs now) = "Please sign in to continue" \/
  message (fetchNextVocab st fs now) = "" \/
  (exists m : Z, message (fetchNextVocab st fs now)
             = "Next review available in " +:+ pretty m +:+ " minutes") \/
  message (fetchNextVocab st fs now) = "No vocabulary available" \/
  message (fetchNextVocab st fs now) = "Error fetching vocabulary".
Proof.
  unfold fetchNextVocab. destruct (user st); [|auto].
  destruct (selectNext fs _ now) as [[doc|[m|]]|e]; cbn; eauto 6.
Qed.

(** ** Further theorems: the selection *)

(** X1. A selected item is never scheduled for later: it either has a
    review time that is not after now, or it has no review time at all; and
    an item without review time is served only when every document of the
    due snapshot is mastered. *)
Theorem selected_item_is_due_or_new db l now doc :
  selectNext (online db) l now = Resolved (Due doc) ->
  (exists t, nextReviewOf l doc.2 = Some t /\ ts_le t now) \/
  (nextReviewOf l doc.2 = None /\
   forall doc', doc' ∈ runQuery db (dueQuery l now) ->
     masteredOf l doc'.2 = Some true).
Proof.
  intros [[Hin _]|(Hdue & _ & Hnone & _)]%selectNext_Due_cases.
  - left. apply elem_of_runQuery in Hin as [_ [Hw _]]. simpl in Hw.
    destruct (nextReviewOf l doc.2) as [t|]; [eauto|done].
  - right. split; [done|]. intros doc' Hin'.
    destruct (decide (masteredOf l doc'.2 = Some true)) as [|Hnm]; [done|].
    destruct (filter_nil_not_elem_of _ _ doc' Hdue Hnm Hin').
Qed.

Lemma selected_item_is_due_or_new_witness :
  (exists t, nextReviewOf mandarin entryX = Some t /\ ts_le t sampleNow) \/
  (nextReviewOf mandarin entryX = None /\
   forall doc', doc' ∈ runQuery twoDue (dueQuery mandarin sampleNow) ->
     masteredOf mandarin doc'.2 = Some true).
Proof.
  apply (selected_item_is_due_or_new twoDue mandarin sampleNow ("x", entryX)).
  vm_compute. reflexivity.
Defined.

(** X2. If one of the documents fetched by the due query is not mastered,
    the selection returns a fetched document that is not mastered and due,
    and no other fetched document that is not mastered comes before it in
    the order (review time, then id). *)
Theorem due_tier_serves_first_fetched db l now d0 :
  d0 ∈ runQuery db (dueQuery l now) -> notMastered l d0 ->
  exists doc t,
    selectNext (online db) l now = Resolved (Due doc) /\
    doc ∈ runQuery db (dueQuery l now) /\ notMastered l doc /\
    nextReviewOf l doc.2 = Some t /\ ts_le t now /\
    forall doc' t', doc' ∈ runQuery db (dueQuery l now) ->
      notMastered l doc' -> nextReviewOf l doc'.2 = Some t' ->
      key_le (t, doc.1) (t', doc'.1).
Proof. apply selectNext_due_head. Qed.

Lemma due_tier_serves_first_fetched_witness :
  exists doc t,
    selectNext (online twoDue) mandarin sampleNow = Resolved (Due doc) /\
    doc ∈ runQuery twoDue (dueQuery mandarin sampleNow) /\
    notMastered mandarin doc /\
    nextReviewOf mandarin doc.2 = Some t /\ ts_le t sampleNow /\
    forall doc' t', doc' ∈ runQuery twoDue (dueQuery mandarin sampleNow) ->
      notMastered mandarin doc' -> nextReviewOf mandarin doc'.2 = Some t' ->
      key_le (t, doc.1) (t', doc'.1).
Proof.
  apply (due_tier_serves_first_fetched twoDue mandarin sampleNow ("y", entryY)).
  - vm_compute. right. left.
  - discriminate.
Defined.

(** X3. If every document fetched by the due query is mastered and one of
    the documents fetched in creation order is new (no review time, not
    mastered), the selection returns a fetched new document, and no other
    fetched new document comes before it in the order (creation time, then
    id): new items are served first in, first out. *)
Theorem new_tier_serves_first_created db l now d0 :
  (forall doc, doc ∈ runQuery db (dueQuery l now) -> ~ notMastered l doc) ->
  d0 ∈ runQuery db newQuery -> isNewWord l d0 ->
  exists doc,
    selectNext (online db) l now = Resolved (Due doc) /\
    doc ∈ runQuery db newQuery /\ isNewWord l doc /\
    forall doc', doc' ∈ runQuery db newQuery -> isNewWord l doc' ->
      key_le (timestamp doc.2, doc.1) (timestamp doc'.2, doc'.1).
Proof. apply selectNext_new_head. Qed.

Lemma new_tier_serves_first_created_witness :
  exists doc,
    selectNext (online mixedStore) mandarin sampleNow = Resolved (Due doc) /\
    doc ∈ runQuery mixedStore newQuery /\ isNewWord mandarin doc /\
    forall doc', doc' ∈ runQuery mixedStore newQuery ->
      isNewWord mandarin doc' ->
      key_le (timestamp doc.2, doc.1) (timestamp doc'.2, doc'.1).
Proof.
  apply (new_tier_serves_first_created mixedStore mandarin sampleNow
           ("n1", sampleEntry 5 None None)).
  - assert (E : runQuery mixedStore (dueQuery mandarin sampleNow)
                = [("a", sampleEntry 1 (Some 40000) (Some true))])
      by (vm_compute; reflexivity).
    rewrite E. intros doc ->%list_elem_of_singleton Hnm. by apply Hnm.
  - vm_compute. right. right. left.
  - split; [reflexivity|discriminate].
Defined.

(** X4. When the selection reports an ETA, with well-formed timestamps,
    the number of minutes is at least 1; it is the time from now to the
    review of a document that is not mastered, rounded up to whole
    minutes; and no document of the store, mastered or not, has a future
    review that comes before this one in the order (review time, then
    id). *)
Theorem eta_is_minutes_to_soonest_review db l now m :
  ts_wf now ->
  (forall id d t, db !! id = Some d -> nextReviewOf l d = Some t -> ts_wf t) ->
  selectNext (online db) l now = Resolved (NoneAvailable (Some m)) ->
  1 <= m /\
  exists doc t,
    db !! doc.1 = Some doc.2 /\ masteredOf l doc.2 <> Some true /\
    nextReviewOf l doc.2 = Some t /\ ts_lt now t /\
    60 * NANOS_PER_SECOND * (m - 1) < toNanos t - toNanos now
      <= 60 * NANOS_PER_SECOND * m /\
    forall id' d' t', db !! id' = Some d' -> nextReviewOf l d' = Some t' ->
      ts_lt now t' -> key_le (t, doc.1) (t', id').
Proof.
  intros Hnow Hwf (doc & rest & t & HF & Hnm & Ht & ->)%selectNext_eta_inv.
  assert (Hdoc : doc ∈ fetchOrder db (nextQuery l now)) by (rewrite HF; left).
  pose proof Hdoc as [Hlook [Hw _]]%elem_of_fetchOrder.
  simpl in Hw. rewrite Ht in Hw. simpl in Hw.
  pose proof (ts_lt_toNanos _ _ Hnow (Hwf _ _ _ Hlook Ht) Hw) as Hpos.
  pose proof (ceilDiv_spec (toNanos t - toNanos now)
                (1000 * 60 * MS_TO_NANOS) eq_refl) as Hceil.
  fold (minutesUntilNext t now) in Hceil.
  change (1000 * 60 * MS_TO_NANOS) with (60 * NANOS_PER_SECOND) in Hceil.
  split; [unfold NANOS_PER_SECOND in Hceil; nia|].
  exists doc, t. do 4 (split; [done|]). split; [lia|].
  intros id' d' t' Hlook' Ht' Hfut.
  assert (Hin' : (id', d') ∈ fetchOrder db (nextQuery l now)).
  { apply elem_of_fetchOrder. split; [done|]. split; simpl.
    - by rewrite Ht'.
    - by rewrite Ht'. }
  pose proof (fetchOrder_sorted db (nextQuery l now)) as Hsorted.
  rewrite HF in Hsorted, Hin'.
  apply StronglySorted_cons in Hsorted as [Hall _].
  apply elem_of_cons in Hin' as [<-|Hin'].
  { simpl in *. assert (t = t') as -> by congruence.
    right. split; [done|]. simpl. reflexivity. }
  rewrite Forall_forall in Hall. specialize (Hall _ Hin').
  unfold doc_le, sortKey in Hall. simpl in Hall. by rewrite Ht, Ht' in Hall.
Qed.

Lemma eta_is_minutes_to_soonest_review_witness :
  1 <= 10 /\
  exists doc t,
    futureStore !! doc.1 = Some doc.2 /\
    masteredOf mandarin doc.2 <> Some true /\
    nextReviewOf mandarin doc.2 = Some t /\ ts_lt sampleNow t /\
    60 * NANOS_PER_SECOND * (10 - 1) < toNanos t - toNanos sampleNow
      <= 60 * NANOS_PER_SECOND * 10 /\
    forall id' d' t', futureStore !! id' = Some d' ->
      nextReviewOf mandarin d' = Some t' ->
      ts_lt sampleNow t' -> key_le (t, doc.1) (t', id').
Proof.
  apply (eta_is_minutes_to_soonest_review futureStore mandarin sampleNow 10).
  - split; by vm_compute.
  - intros id d t Hlook Ht. unfold futureStore in Hlook.
    apply lookup_insert_Some in Hlook as [[<- <-]|[_ Hlook]].
    + injection Ht as <-. split; by vm_compute.
    + rewrite lookup_empty in Hlook. discriminate.
  - vm_compute. reflexivity.
Defined.

(** X5. For a store of at most 50 documents there is no fetch window to
    fall out of: as soon as some document is due and not mastered, the
    selection returns a due document that is not mastered, and no due
    document of the whole store that is not mastered comes before it in
    the order (review time, then id). *)
Theorem small_corpus_serves_earliest_due db l now id d T :
  (size db <= 50)%nat ->
  db !! id = Some d ->
  nextReviewOf l d = Some T -> ts_le T now -> masteredOf l d <> Some true ->
  exists doc t,
    selectNext (online db) l now = Resolved (Due doc) /\
    db !! doc.1 = Some doc.2 /\ masteredOf l doc.2 <> Some true /\
    nextReviewOf l doc.2 = Some t /\ ts_le t now /\
    forall id' d' t', db !! id' = Some d' ->
      nextReviewOf l d' = Some t' -> ts_le t' now ->
      masteredOf l d' <> Some true -> key_le (t, doc.1) (t', id').
Proof.
  intros Hsize Hd HT Hdue Hnm.
  assert (Hall : runQuery db (dueQuery l now) = fetchOrder db (dueQuery l now)).
  { apply runQuery_complete. pose proof (fetchOrder_length db (dueQuery l now)).
    simpl. lia. }
  assert (Hfetched : forall id' d' t', db !! id' = Some d' ->
            nextReviewOf l d' = Some t' -> ts_le t' now ->
            (id', d') ∈ runQuery db (dueQuery l now)).
  { intros id' d' t' Hlook Ht' Hle. rewrite Hall. apply elem_of_fetchOrder.
    split; [done|]. split; simpl; [by rewrite Ht'|done]. }
  destruct (selectNext_due_head db l now (id, d))
    as (doc & t & Hsel & Hin & Hdnm & Ht & Hle & Hleast); [by eauto|done|].
  exists doc, t. split; [done|].
  split; [by apply elem_of_runQuery in Hin as [? _]|].
  do 3 (split; [done|]).
  intros id' d' t' Hlook Ht' Hdue' Hnm'.
  by apply (Hleast (id', d') t'); eauto.
Qed.

Lemma small_corpus_serves_earliest_due_witness :
  exists doc t,
    selectNext (online twoDue) mandarin sampleNow = Resolved (Due doc) /\
    twoDue !! doc.1 = Some doc.2 /\ masteredOf mandarin doc.2 <> Some true /\
    nextReviewOf mandarin doc.2 = Some t /\ ts_le t sampleNow /\
    forall id' d' t', twoDue !! id' = Some d' ->
      nextReviewOf mandarin d' = Some t' -> ts_le t' sampleNow ->
      masteredOf mandarin d' <> Some true -> key_le (t, doc.1) (t', id').
Proof.
  apply (small_corpus_serves_earliest_due twoDue mandarin sampleNow
           "y" entryY (fromMillis 61000)).
  - vm_compute. lia.
  - reflexivity.
  - reflexivity.
  - left. left. reflexivity.
  - discriminate.
Defined.

(** X6. After [fetchNextVocab] has run for a signed-in user, the loading
    flag is off and the evaluation, the next review time and the question
    of the previous item are cleared. If the store could be read, an item
    is shown exactly when the message is empty; if not, the message is
    'Error fetching vocabulary' and the current item stays. *)
Theorem fetchNextVocab_item_or_message st fs now :
  is_Some (user st) ->
  isLoading (fetchNextVocab st fs now) = false /\
  evaluation (fetchNextVocab st fs now) = None /\
  nextReview (fetchNextVocab st fs now) = None /\
  currentQuestion (fetchNextVocab st fs now) = None /\
  (reachable fs = true ->
     (is_Some (currentVocab (fetchNextVocab st fs now)) <->
      message (fetchNextVocab st fs now) = "")) /\
  (reachable fs = false ->
     message (fetchNextVocab st fs now) = "Error fetching vocabulary" /\
     currentVocab (fetchNextVocab st fs now) = currentVocab st).
Proof.
  intros [u Hu]. unfold fetchNextVocab. rewrite Hu.
  destruct fs as [db [|]]; cbn [reachable].
  - change {| vocabulary := db; reachable := true |} with (online db).
    destruct (selectNext_resolves db (language st) now) as [sel Hsel].
    cbn [language setCurrentQuestion setNextReview setEvaluation setIsLoading].
    rewrite Hsel. destruct sel as [doc|[m|]]; cbn.
    + do 4 (split; [done|]). split; [|done]. intros _. split; [done|eauto].
    + do 4 (split; [done|]). split; [|done]. intros _.
      split; [by intros [? ?]|]. intros H. by apply app_cons_ne in H.
    + do 4 (split; [done|]). split; [|done]. intros _.
      split; [by intros [? ?]|done].
  - cbn. do 4 (split; [done|]). split; [done|]. by intros _.
Qed.

Lemma fetchNextVocab_item_or_message_witness :
  isLoading (fetchNextVocab sampleState (online twoDue) sampleNow) = false /\
  evaluation (fetchNextVocab sampleState (online twoDue) sampleNow) = None /\
  nextReview (fetchNextVocab sampleState (online twoDue) sampleNow) = None /\
  currentQuestion (fetchNextVocab sampleState (online twoDue) sampleNow)
    = None /\
  (reachable (online twoDue) = true ->
     (is_Some (currentVocab (fetchNextVocab sampleState (online twoDue)
                               sampleNow)) <->
      message (fetchNextVocab sampleState (online twoDue) sampleNow) = "")) /\
  (reachable (online twoDue) = false ->
     message (fetchNextVocab sampleState (online twoDue) sampleNow)
       = "Error fetching vocabulary" /\
     currentVocab (fetchNextVocab sampleState (online twoDue) sampleNow)
       = currentVocab sampleState).
Proof.
  apply (fetchNextVocab_item_or_message sampleState (online twoDue) sampleNow).
  by eexists.
Defined.

(** ** Further facts: what the queries read *)

Lemma filter_fmap_iff {A B} (g : A -> B) (P : B -> Prop) (Q : A -> Prop)
    `{!forall y, Decision (P y)} `{!forall x, Decision (Q x)} (l : list A) :
  (forall x, P (g x) <-> Q x) -> filter P (g <$> l) = g <$> filter Q l.
Proof.
  intros HPQ. induction l as [|a l IH]; [done|].
  csimpl. rewrite !filter_cons, IH.
  destruct (decide (P (g a))) as [HP|HP], (decide (Q a)) as [HQ|HQ];
    [done| | |done]; by apply HPQ in HP || apply HPQ in HQ.
Qed.

Lemma matches_fmap (f : VocabData -> VocabData) q id d :
  (forall fld d, fld ∈ queryFields q -> fieldValue fld (f d) = fieldValue fld d) ->
  matches q (id, f d) <-> matches q (id, d).
Proof.
  intros Hf. unfold matches, queryFields in *. simpl.
  destruct (q_where q) as [[[fw op] bound]|], (q_orderBy q) as [fo|];
    rewrite ?Hf; [done|set_solver..].
Qed.

Lemma sortKey_fmap (f : VocabData -> VocabData) q id d :
  (forall fld d, fld ∈ queryFields q -> fieldValue fld (f d) = fieldValue fld d) ->
  sortKey (sortField q) (id, f d) = sortKey (sortField q) (id, d).
Proof.
  intros Hf. unfold sortKey, sortField, queryFields in *. simpl.
  destruct (q_where q) as [[[fw op] bound]|], (q_orderBy q) as [fo|];
    simpl; rewrite ?Hf; [done|set_solver..].
Qed.

(** Changing fields that a query does not mention changes nothing but
    these fields in its result. *)
Lemma fetchOrder_fmap (f : VocabData -> VocabData) db q :
  (forall fld d, fld ∈ queryFields q -> fieldValue fld (f d) = fieldValue fld d) ->
  fetchOrder (f <$> db) q = prod_map id f <$> fetchOrder db q.
Proof.
  intros Hf. symmetry. apply fetchOrder_unique.
  - apply (StronglySorted_fmap _ (doc_le (sortField q)) (doc_le (sortField q)));
      [|apply fetchOrder_sorted].
    intros [ia da] [ib db0]. unfold doc_le, prod_map. simpl.
    by rewrite !sortKey_fmap.
  - apply NoDup_fmap_2_strong; [|apply fetchOrder_NoDup].
    intros [ia da] [ib db0] [Ha _]%elem_of_fetchOrder [Hb _]%elem_of_fetchOrder.
    unfold prod_map. simpl in *. intros [= -> _]. congruence.
  - intros [id d']. rewrite list_elem_of_fmap. simpl. split.
    + intros ([id0 d] & [= -> ->] & [Hlook Hm]%elem_of_fetchOrder).
      simpl in *. rewrite lookup_fmap, Hlook. split; [done|].
      by apply matches_fmap.
    + intros [Hlook Hm]. rewrite lookup_fmap in Hlook.
      destruct (db !! id) as [d|] eqn:Hd; [|done].
      injection Hlook as <-. exists (id, d). split; [done|].
      apply elem_of_fetchOrder. split; [done|]. by apply matches_fmap in Hm.
Qed.

Lemma runQuery_fmap (f : VocabData -> VocabData) db q :
  (forall fld d, fld ∈ queryFields q -> fieldValue fld (f d) = fieldValue fld d) ->
  runQuery (f <$> db) q = prod_map id f <$> runQuery db q.
Proof.
  intros Hf. unfold runQuery. by rewrite fetchOrder_fmap, fmap_take.
Qed.

(** The selection commutes with any change of the documents that keeps
    creation time, review time and mastered flag of the language. *)
Lemma selectNext_fmap (f : VocabData -> VocabData) db l now :
  (forall d, trackView l (f d) = trackView l d) ->
  selectNext (online (f <$> db)) l now
    = mapSelection f (selectNext (online db) l now).
Proof.
  intros Hf.
  assert (Hts : forall d, timestamp (f d) = timestamp d)
    by (intros d; by injection (Hf d)).
  assert (Hnr : forall d, nextReviewOf l (f d) = nextReviewOf l d)
    by (intros d; by injection (Hf d)).
  assert (Hma : forall d, masteredOf l (f d) = masteredOf l d)
    by (intros d; by injection (Hf d)).
  assert (Hfld : forall fld d,
            fld = nextReviewField l \/ fld = timestampField ->
            fieldValue fld (f d) = fieldValue fld d).
  { intros fld d [->| ->]; simpl; [apply Hnr|by rewrite Hts]. }
  run_selection.
  rewrite !runQuery_fmap
    by (intros fld d Hin; apply Hfld; revert Hin; cbn;
        rewrite ?elem_of_cons, elem_of_nil; tauto).
  rewrite (filter_fmap_iff _ (notMastered l) (notMastered l))
    by (intros [? ?]; unfold notMastered; simpl; by rewrite Hma).
  rewrite (filter_fmap_iff _ (isNewWord l) (isNewWord l))
    by (intros [? ?]; unfold isNewWord; simpl; by rewrite Hma, Hnr).
  rewrite (filter_fmap_iff _ (notMastered l) (notMastered l))
    by (intros [? ?]; unfold notMastered; simpl; by rewrite Hma).
  destruct (filter (notMastered l) (runQuery db (dueQuery l now)))
    as [|d1 r1]; [|done].
  destruct (filter (isNewWord l) (runQuery db newQuery)) as [|d2 r2]; [|done].
  destruct (filter (notMastered l) (runQuery db (nextQuery l now)))
    as [|[i3 d3] r3]; [done|].
  csimpl. rewrite Hnr. by destruct (nextReviewOf l d3).
Qed.

Lemma trackView_eraseOthers l d : trackView l (eraseOthers l d) = trackView l d.
Proof. by destruct l. Qed.

Lemma eraseOthers_trackView l d d' :
  trackView l d = trackView l d' -> eraseOthers l d = eraseOthers l d'.
Proof. unfold trackView, eraseOthers. by intros [= -> -> ->]. Qed.

Lemma outcomeOf_mapSelection f s : outcomeOf (mapSelection f s) = outcomeOf s.
Proof. by destruct s as [[[? ?]|?]|?]. Qed.

(** X7. The selection for a language reads nothing of a document but its
    id, its creation time and its review time and mastered flag for that
    language: two stores whose documents agree on these give the same
    item id, or the same ETA. Whatever is recorded for the other language,
    or for progress, has no influence. *)
Theorem selection_reads_one_language db db' l now :
  (forall id, trackView l <$> db !! id = trackView l <$> db' !! id) ->
  outcomeOf (selectNext (online db) l now)
    = outcomeOf (selectNext (online db') l now).
Proof.
  intros Hview.
  assert (Herase : eraseOthers l <$> db = eraseOthers l <$> db').
  { apply map_eq. intros id. rewrite !lookup_fmap. specialize (Hview id).
    destruct (db !! id) as [d|], (db' !! id) as [d'|]; try done.
    simpl in *. f_equal. apply eraseOthers_trackView. congruence. }
  rewrite <- (outcomeOf_mapSelection (eraseOthers l)
                (selectNext (online db) l now)).
  rewrite <- (outcomeOf_mapSelection (eraseOthers l)
                (selectNext (online db') l now)).
  rewrite <- !selectNext_fmap by apply trackView_eraseOthers.
  by rewrite Herase.
Qed.

Lemma selection_reads_one_language_witness :
  outcomeOf (selectNext (online twoDue) mandarin sampleNow)
    = outcomeOf
        (selectNext
           (online (<["x" := set_mastered cantonese (Some true)
                               (set_nextReview cantonese (Some sampleNow)
                                  entryX)]> twoDue))
           mandarin sampleNow).
Proof.
  apply (selection_reads_one_language twoDue
           (<["x" := set_mastered cantonese (Some true)
                       (set_nextReview cantonese (Some sampleNow) entryX)]>
              twoDue)
           mandarin sampleNow).
  intros id. destruct (decide (id = "x")) as [->|Hne].
  - rewrite lookup_insert_eq. reflexivity.
  - by rewrite lookup_insert_ne.
Defined.

(** ** Further facts: the word lists *)

Lemma ts_lt_le_trans a b c : ts_lt a b -> ts_le b c -> ts_le a c.
Proof. intros Hab [Hbc| <-]; left; eauto using ts_lt_trans. Qed.

Lemma ts_le_trans a b c : ts_le a b -> ts_le b c -> ts_le a c.
Proof. intros [Hab| ->] Hbc; eauto using ts_lt_le_trans. Qed.

Lemma StronglySorted_filter {A} (R : relation A) (P : A -> Prop)
    `{!forall x, Decision (P x)} (l : list A) :
  StronglySorted R l -> StronglySorted R (filter P l).
Proof.
  induction 1 as [|a l Hl IH Ha]; [constructor|].
  rewrite filter_cons. destruct (decide (P a)); [|done].
  constructor; [done|]. rewrite Forall_forall in *.
  intros y [_ Hy]%list_elem_of_filter. auto.
Qed.

Lemma filter_ext_in {A} (P Q : A -> Prop) `{!forall x, Decision (P x)}
    `{!forall x, Decision (Q x)} (l : list A) :
  (forall x, x ∈ l -> P x <-> Q x) -> filter P l = filter Q l.
Proof.
  induction l as [|a l IH]; intros HPQ; [done|].
  rewrite !filter_cons, IH by (intros x Hx; apply HPQ; by right).
  destruct (decide (P a)) as [HP|HP], (decide (Q a)) as [HQ|HQ];
    [done| | |done]; by apply HPQ in HP || apply HPQ in HQ; try left.
Qed.

(** In a sorted list, the elements that satisfy a property closed towards
    the front form a prefix. *)
Lemma filter_sorted_prefix {A} (R : relation A) (P : A -> Prop)
    `{!forall x, Decision (P x)} (l : list A) :
  StronglySorted R l ->
  (forall x y, x ∈ l -> y ∈ l -> R x y -> P y -> P x) ->
  filter P l = take (length (filter P l)) l.
Proof.
  induction 1 as [|a l Hl IH Ha]; intros Hclosed; [done|].
  rewrite filter_cons. destruct (decide (P a)) as [HPa|HPa].
  - simpl. f_equal. apply IH. intros x y Hx Hy. apply Hclosed; by right.
  - rewrite (filter_none P l); [done|].
    intros y Hy HPy. apply HPa. rewrite Forall_forall in Ha.
    apply (Hclosed a y); [left|by right|by apply Ha|done].
Qed.

(** The order of the due query is the front part of the order of the
    scheduled query. *)
Lemma dueOrder_prefix db l now :
  exists k, fetchOrder db (dueQuery l now)
            = take k (fetchOrder db (scheduledQuery l)).
Proof.
  exists (length (filter (isDueAt l now) (fetchOrder db (scheduledQuery l)))).
  rewrite <- filter_sorted_prefix with (R := doc_le (Some (nextReviewField l))).
  - symmetry. apply fetchOrder_unique.
    + apply StronglySorted_filter, (fetchOrder_sorted db (scheduledQuery l)).
    + apply NoDup_filter, fetchOrder_NoDup.
    + intros doc. rewrite list_elem_of_filter, elem_of_fetchOrder.
      unfold isDueAt, matches. simpl.
      destruct (nextReviewOf l doc.2) as [t|]; [|tauto].
      split; [tauto|]. intros (? & ? & _). repeat split; eauto.
  - apply (fetchOrder_sorted db (scheduledQuery l)).
  - intros x y [_ [_ Hx]]%elem_of_fetchOrder [_ [_ Hy]]%elem_of_fetchOrder.
    unfold doc_le, sortKey, key_le, isDueAt. simpl in *.
    destruct Hx as [tx Hx], Hy as [ty Hy]. rewrite Hx, Hy. simpl.
    intros [Hlt|[-> _]] Hdue; [|done]. by eapply ts_lt_le_trans.
Qed.

(** What the selection hands out is the head of one of its two filtered
    snapshots. *)
Lemma selectNext_Due_heads db l now doc :
  selectNext (online db) l now = Resolved (Due doc) ->
  head (filter (notMastered l) (runQuery db (dueQuery l now))) = Some doc \/
  (filter (notMastered l) (runQuery db (dueQuery l now)) = [] /\
   head (filter (isNewWord l) (runQuery db newQuery)) = Some doc).
Proof.
  run_selection.
  destruct (filter (notMastered l) _) as [|d1 r1].
  - destruct (filter (isNewWord l) _) as [|d2 r2].
    + destruct (filter (notMastered l) (runQuery db (nextQuery l now)))
        as [|d3 r3]; [discriminate|].
      destruct (nextReviewOf l d3.2); discriminate.
    + intros [= <-]. by right.
  - intros [= <-]. by left.
Qed.

Lemma elem_of_masteredSnapshot db l (doc : Doc) :
  doc ∈ masteredSnapshot db l ->
  db !! doc.1 = Some doc.2 /\ masteredOf l doc.2 = Some true.
Proof.
  unfold masteredSnapshot. rewrite elem_of_take. intros (i & Hi & _).
  apply list_elem_of_lookup_2 in Hi. rewrite merge_sort_Permutation in Hi.
  apply list_elem_of_filter in Hi as [Hm Hin].
  by apply (elem_of_map_to_list' db doc) in Hin.
Qed.

Global Instance doc_ge_total sf : Total (doc_ge sf).
Proof. intros a b. unfold doc_ge. apply (total (doc_le sf)). Qed.

Global Instance doc_ge_trans sf : Transitive (doc_ge sf).
Proof. intros a b c Hab Hbc. unfold doc_ge in *. by etrans. Qed.

Lemma StronglySorted_take {A} (R : relation A) n (l : list A) :
  StronglySorted R l -> StronglySorted R (take n l).
Proof.
  intros Hl. rewrite <- (take_drop n l) in Hl.
  by apply StronglySorted_app_1_l in Hl.
Qed.

(** ** Further theorems: the word lists *)

(** X8. The three lists of the word list modal sort the documents they
    hold by state: a scheduled word has a review time and is not mastered,
    a new word has no review time and is not mastered, a mastered word has
    its mastered flag set. Each list holds at most 50 documents of the
    store, and no document id appears in two of the lists. *)
Theorem word_lists_classify fs l lists :
  queryWordLists fs l = Resolved lists ->
  (forall doc, doc ∈ scheduledWords lists ->
     vocabulary fs !! doc.1 = Some doc.2 /\
     is_Some (nextReviewOf l doc.2) /\ masteredOf l doc.2 <> Some true) /\
  (forall doc, doc ∈ newWords lists ->
     vocabulary fs !! doc.1 = Some doc.2 /\
     nextReviewOf l doc.2 = None /\ masteredOf l doc.2 <> Some true) /\
  (forall doc, doc ∈ masteredWords lists ->
     vocabulary fs !! doc.1 = Some doc.2 /\ masteredOf l doc.2 = Some true) /\
  (length (scheduledWords lists) <= 50)%nat /\
  (length (newWords lists) <= 50)%nat /\
  (length (masteredWords lists) <= 50)%nat /\
  (forall a b, a ∈ scheduledWords lists -> b ∈ newWords lists -> a.1 <> b.1) /\
  (forall a b, a ∈ scheduledWords lists -> b ∈ masteredWords lists ->
     a.1 <> b.1) /\
  (forall a b, a ∈ newWords lists -> b ∈ masteredWords lists -> a.1 <> b.1).
Proof.
  destruct fs as [db [|]]; [|discriminate]. intros [= <-]. cbn.
  assert (Hs : forall doc,
    doc ∈ filter (isScheduledWord l) (runQuery db (scheduledQuery l)) ->
    db !! doc.1 = Some doc.2 /\
    is_Some (nextReviewOf l doc.2) /\ masteredOf l doc.2 <> Some true).
  { intros doc [[? ?] [? _]%elem_of_runQuery]%list_elem_of_filter. auto. }
  assert (Hn : forall doc,
    doc ∈ filter (isNewWord l) (runQuery db newQuery) ->
    db !! doc.1 = Some doc.2 /\
    nextReviewOf l doc.2 = None /\ masteredOf l doc.2 <> Some true).
  { intros doc [[? ?] [? _]%elem_of_runQuery]%list_elem_of_filter. auto. }
  pose proof (elem_of_masteredSnapshot db l) as Hm.
  split; [exact Hs|]. split; [exact Hn|]. split; [exact Hm|].
  split; [etrans; [apply length_filter|apply (runQuery_length db (scheduledQuery l))]|].
  split; [etrans; [apply length_filter|apply (runQuery_length db newQuery)]|].
  split; [unfold masteredSnapshot; rewrite length_take; lia|].
  split; [|split].
  - intros a b (Ha & [t Ht] & _)%Hs (Hb & Hnone & _)%Hn Heq.
    rewrite Heq in Ha. congruence.
  - intros a b (Ha & _ & Hnm)%Hs (Hb & Hma)%Hm Heq.
    rewrite Heq in Ha. congruence.
  - intros a b (Ha & _ & Hnm)%Hn (Hb & Hma)%Hm Heq.
    rewrite Heq in Ha. congruence.
Qed.

Lemma word_lists_classify_witness :
  (length (newWords mixedLists) <= 50)%nat /\
  (length (masteredWords mixedLists) <= 50)%nat.
Proof.
  destruct (word_lists_classify (online mixedStore) mandarin mixedLists)
    as (_ & _ & _ & _ & Hn & Hm & _).
  - vm_compute. reflexivity.
  - split; [exact Hn|exact Hm].
Defined.

(** X9. The item that [fetchNextVocab] serves stands at the top of the list
    it belongs to in the word list modal: an item with a review time is the
    first entry of the scheduled words, an item without one is the first
    entry of the new words. *)
Theorem served_item_heads_its_word_list db l now doc lists :
  queryWordLists (online db) l = Resolved lists ->
  selectNext (online db) l now = Resolved (Due doc) ->
  (is_Some (nextReviewOf l doc.2) -> head (scheduledWords lists) = Some doc) /\
  (nextReviewOf l doc.2 = None -> head (newWords lists) = Some doc).
Proof.
  intros [= <-] Hsel. cbn.
  apply selectNext_Due_heads in Hsel as [Hhead|[_ Hhead]].
  - split.
    + intros _.
      destruct (dueOrder_prefix db l now) as [k Hk].
      unfold runQuery in *. cbn [q_limit dueQuery scheduledQuery] in *.
      rewrite Hk, take_take in Hhead.
      set (S := fetchOrder db (scheduledQuery l)) in *.
      rewrite (filter_ext_in (isScheduledWord l) (notMastered l)).
      2:{ intros x Hx. unfold isScheduledWord, notMastered.
          apply elem_of_take in Hx as (i & Hi%list_elem_of_lookup_2 & _).
          apply elem_of_fetchOrder in Hi as [_ [_ Hrev]]. simpl in Hrev.
          tauto. }
      rewrite <- (take_drop (min 50 k) (take 50 S)).
      rewrite take_take.
      replace (min (min 50 k) 50) with (min 50 k) by lia.
      by rewrite filter_app, head_app, Hhead.
    + intros Hnone. apply head_Some_elem_of in Hhead.
      apply list_elem_of_filter in Hhead as [_ Hin].
      apply elem_of_runQuery in Hin as [_ [Hw _]]. simpl in Hw.
      by rewrite Hnone in Hw.
  - split; [|done]. intros [t Ht].
    apply head_Some_elem_of in Hhead.
    apply list_elem_of_filter in Hhead as [[Hnone _] _]. congruence.
Qed.

Lemma served_item_heads_its_word_list_witness :
  head (newWords mixedLists) = Some ("n2", sampleEntry 3 None None).
Proof.
  apply (served_item_heads_its_word_list mixedStore mandarin sampleNow
           ("n2", sampleEntry 3 None None) mixedLists).
  - vm_compute. reflexivity.
  - vm_compute. reflexivity.
  - reflexivity.
Defined.

Lemma StronglySorted_weaken {A} (R R' : relation A) (l : list A) :
  (forall x y, x ∈ l -> y ∈ l -> R x y -> R' x y) ->
  StronglySorted R l -> StronglySorted R' l.
Proof.
  intros HR Hl. induction Hl as [|a l Hl IH Ha]; [constructor|].
  constructor.
  - apply IH. intros x y Hx Hy. apply HR; by right.
  - rewrite Forall_forall in *. intros y Hy.
    apply HR; [left|by right|by apply Ha].
Qed.

Lemma key_le_ts a b : key_le a b -> ts_le a.1 b.1.
Proof. intros [Hlt|[-> _]]; [by left|by right]. Qed.

(** X10. The word lists come in a fixed order: scheduled words from the
    earliest review time to the latest, new words from the oldest
    creation time to the newest, mastered words from the newest creation
    time to the oldest. *)
Theorem word_lists_are_ordered fs l lists :
  queryWordLists fs l = Resolved lists ->
  StronglySorted
    (fun a b => exists ta tb, nextReviewOf l a.2 = Some ta /\
                  nextReviewOf l b.2 = Some tb /\ ts_le ta tb)
    (scheduledWords lists) /\
  StronglySorted (fun a b => ts_le (timestamp a.2) (timestamp b.2))
    (newWords lists) /\
  StronglySorted (fun a b => ts_le (timestamp b.2) (timestamp a.2))
    (masteredWords lists).
Proof.
  destruct fs as [db [|]]; [|discriminate]. intros [= <-]. cbn.
  split; [|split].
  - apply StronglySorted_weaken
      with (R := doc_le (sortField (scheduledQuery l)));
      [|apply StronglySorted_filter, (runQuery_sorted db (scheduledQuery l))].
    intros a b [[[ta Ha] _] _]%list_elem_of_filter
      [[[tb Hb] _] _]%list_elem_of_filter Hle.
    exists ta, tb. do 2 (split; [done|]).
    apply key_le_ts in Hle. unfold sortKey in Hle. simpl in Hle.
    by rewrite Ha, Hb in Hle.
  - apply StronglySorted_weaken with (R := doc_le (sortField newQuery));
      [|apply StronglySorted_filter, (runQuery_sorted db newQuery)].
    intros a b _ _ Hle. by apply key_le_ts in Hle.
  - apply StronglySorted_weaken with (R := doc_ge (Some timestampField));
      [|apply StronglySorted_take, StronglySorted_merge_sort; apply _].
    intros a b _ _ Hle. by apply key_le_ts in Hle.
Qed.

Lemma word_lists_are_ordered_witness :
  StronglySorted (fun a b => ts_le (timestamp a.2) (timestamp b.2))
    (newWords mixedLists).
Proof.
  destruct (word_lists_are_ordered (online mixedStore) mandarin mixedLists)
    as (_ & Hn & _).
  - vm_compute. reflexivity.
  - exact Hn.
Defined.

(** ** Further theorems: sign-in, scheduling and the Mastered button *)

(** X11. The two revisions of [signIn] agree whenever the popup signs in
    an account whose email is already in lower case (or that has no
    email), and every account that the exact comparison lets in is let in
    by the lower-case comparison as well. *)
Theorem sign_in_revisions_agree session u :
  (forall e, email u = Some e -> toLowerCase e = e) ->
  signIn_lowercase session (PopupUser u) = signIn session (PopupUser u) /\
  (forall s v, signIn session (PopupUser u) = (s, Resolved v) ->
     signIn_lowercase session (PopupUser u) = (s, Resolved v)).
Proof.
  intros Hlower.
  assert (Hsame : toLowerCase <$> email u = email u).
  { destruct (email u) as [e|]; [|done]. simpl. by rewrite Hlower. }
  assert (Heq : signIn_lowercase session (PopupUser u)
                = signIn session (PopupUser u)).
  { unfold signIn, signIn_lowercase. rewrite Hsame.
    by destruct (decide (email u = Some ALLOWED_EMAIL)). }
  split; [done|]. intros s v Hs. by rewrite Heq.
Qed.

Lemma sign_in_revisions_agree_witness :
  signIn_lowercase None (PopupUser otherUser)
    = signIn None (PopupUser otherUser) /\
  (forall s v, signIn None (PopupUser otherUser) = (s, Resolved v) ->
     signIn_lowercase None (PopupUser otherUser) = (s, Resolved v)).
Proof.
  apply (sign_in_revisions_agree None otherUser).
  intros e [= <-]. reflexivity.
Defined.

(** X12. When the app finds nobody signed in and the sign-in it starts
    does not end with the allowed account, nobody is shown as signed in,
    the loading flag is off and the message is never empty: it is
    'Please sign in with wzhybrid@gmail.com' for any other account, the
    text of the popup error otherwise, and a fixed text when that error
    has none. *)
Theorem failed_sign_in_is_reported st popup :
  (forall u, popup = PopupUser u -> email u <> Some ALLOWED_EMAIL) ->
  user (onAuthStateChanged st None popup) = None /\
  isLoading (onAuthStateChanged st None popup) = false /\
  message (onAuthStateChanged st None popup) <> "" /\
  (forall u, popup = PopupUser u ->
     message (onAuthStateChanged st None popup)
       = "Please sign in with wzhybrid@gmail.com") /\
  (forall e, popup = PopupError e ->
     message (onAuthStateChanged st None popup)
       = signInFailureMessage (rethrow e)).
Proof.
  intros Hwrong. unfold onAuthStateChanged, signIn.
  destruct popup as [u|e].
  - rewrite decide_False by by apply Hwrong. cbn.
    do 2 (split; [done|]). split; [done|]. split; [done|]. by intros e [=].
  - cbn. do 2 (split; [done|]). split; [|split; [by intros u [=]|]].
    + unfold signInFailureMessage.
      destruct (decide (errorMessage (rethrow e) = "")); [done|done].
    + by intros e' [= <-].
Qed.

Lemma failed_sign_in_is_reported_witness :
  user (onAuthStateChanged sampleState None (PopupUser otherUser)) = None /\
  isLoading (onAuthStateChanged sampleState None (PopupUser otherUser))
    = false /\
  message (onAuthStateChanged sampleState None (PopupUser otherUser))
    = "Please sign in with wzhybrid@gmail.com".
Proof.
  destruct (failed_sign_in_is_reported sampleState (PopupUser otherUser))
    as (Hu & Hl & _ & Hm & _).
  - intros u [= <-]. discriminate.
  - split; [exact Hu|]. split; [exact Hl|]. by apply (Hm otherUser).
Defined.

(** What [fetchNextVocab] leaves alone, and where its item comes from. *)
Lemma fetchNextVocab_frame st fs now :
  userInput (fetchNextVocab st fs now) = userInput st /\
  hadDifficulty (fetchNextVocab st fs now) = hadDifficulty st /\
  selectedReviewTime (fetchNextVocab st fs now) = selectedReviewTime st /\
  forall doc, currentVocab (fetchNextVocab st fs now) = Some doc ->
    currentVocab st = Some doc \/
    selectNext fs (language st) now = Resolved (Due doc).
Proof.
  unfold fetchNextVocab. destruct (user st); [|by auto].
  change (language (setCurrentQuestion None
            (setNextReview None (setEvaluation None (setIsLoading true st)))))
    with (language st).
  destruct (selectNext fs (language st) now) as [[d|[m|]]|e]; cbn;
    repeat split; try done; intros doc [=]; subst; auto.
Qed.

(** The state the Mastered handler hands to [fetchNextVocab]. *)
Lemma onMarkMastered_ok st vocab ok fs now :
  currentVocab st = Some vocab ->
  onMarkMastered st (FetchOk ok) fs now
    = setIsLoading false
        (fetchNextVocab
           (setCurrentQuestion None
              (setCurrentVocab None
                 (setSelectedReviewTime None
                    (setNextReview None
                       (setEvaluation None
                          (setHadDifficulty false
                             (setUserInput ""
                                (setMessage "Word marked as mastered"
                                   (setIsLoading true st)))))))))
           fs now).
Proof. intros Hv. unfold onMarkMastered. by rewrite Hv. Qed.

Lemma setIsLoading_frame b st :
  userInput (setIsLoading b st) = userInput st /\
  hadDifficulty (setIsLoading b st) = hadDifficulty st /\
  selectedReviewTime (setIsLoading b st) = selectedReviewTime st /\
  message (setIsLoading b st) = message st /\
  currentVocab (setIsLoading b st) = currentVocab st.
Proof. by repeat split. Qed.

(** X14. After a click on Mastered whose request succeeds, the input, the
    difficulty mark and the selected review time are reset, the item shown
    next, if any, is not mastered in the language, and the message is
    never 'Word marked as mastered': the fetch of the next item always
    replaces it. When the request fails, the item stays and the message is
    'Error marking word as mastered'. *)
Theorem mark_mastered_moves_on st response fs now :
  is_Some (currentVocab st) ->
  (forall ok, response = FetchOk ok ->
     userInput (onMarkMastered st response fs now) = "" /\
     hadDifficulty (onMarkMastered st response fs now) = false /\
     selectedReviewTime (onMarkMastered st response fs now) = None /\
     message (onMarkMastered st response fs now) <> "Word marked as mastered" /\
     forall doc, currentVocab (onMarkMastered st response fs now) = Some doc ->
       masteredOf (language st) doc.2 <> Some true) /\
  ((forall ok, response <> FetchOk ok) ->
     currentVocab (onMarkMastered st response fs now) = currentVocab st /\
     message (onMarkMastered st response fs now)
       = "Error marking word as mastered").
Proof.
  intros [vocab Hv]. split.
  - intros ok ->. rewrite (onMarkMastered_ok st vocab ok fs now Hv).
    remember (setCurrentQuestion None
                (setCurrentVocab None
                   (setSelectedReviewTime None
                      (setNextReview None
                         (setEvaluation None
                            (setHadDifficulty false
                               (setUserInput ""
                                  (setMessage "Word marked as mastered"
                                     (setIsLoading true st))))))))) as st0
      eqn:Hst0.
    assert (Hfields : userInput st0 = "" /\ hadDifficulty st0 = false /\
              selectedReviewTime st0 = None /\ currentVocab st0 = None /\
              language st0 = language st) by (by subst st0).
    destruct Hfields as (Hin & Hdiff & Hsel & Hcur & Hlang).
    destruct (fetchNextVocab_frame st0 fs now) as (Hin' & Hdiff' & Hsel' & Hdoc).
    destruct (setIsLoading_frame false (fetchNextVocab st0 fs now))
      as (-> & -> & -> & -> & ->).
    rewrite Hin', Hdiff', Hsel', Hin, Hdiff, Hsel.
    do 3 (split; [done|]). split.
    + destruct (fetchNextVocab_message st0 fs now)
        as [H|[H|[[m H]|[H|H]]]]; rewrite H; discriminate.
    + intros doc [Hd|Hd]%Hdoc; [congruence|]. rewrite Hlang in Hd.
      destruct fs as [db [|]]; [|discriminate].
      change {| vocabulary := db; reachable := true |} with (online db) in Hd.
      by apply selectNext_Due_inv in Hd as [[_ Hm]|[_ [_ Hm]]].
  - intros Hfail.
    destruct response as [e|statusText body|ok]; [| |by destruct (Hfail ok)];
      unfold onMarkMastered; rewrite Hv; split; reflexivity || exact Hv.
Qed.

Lemma mark_mastered_moves_on_witness :
  currentVocab
    (onMarkMastered sampleState (FetchRejected (Error "offline"))
       (online twoDue) sampleNow)
    = currentVocab sampleState /\
  message
    (onMarkMastered sampleState (FetchRejected (Error "offline"))
       (online twoDue) sampleNow)
    = "Error marking word as mastered".
Proof.
  apply (mark_mastered_moves_on sampleState (FetchRejected (Error "offline"))
           (online twoDue) sampleNow).
  - by eexists.
  - intros ok. discriminate.
Defined.

(** X15. When neither tier yields an item, the answer rests on the single
    document with the soonest future review: without such a document, or
    when it is mastered, no ETA is reported, whatever else is scheduled;
    when it is not mastered, the ETA is the time to its review in minutes,
    rounded up. *)
Theorem upcoming_tier_reads_one_document db l now :
  (forall doc, doc ∈ runQuery db (dueQuery l now) -> ~ notMastered l doc) ->
  (forall doc, doc ∈ runQuery db newQuery -> ~ isNewWord l doc) ->
  match fetchOrder db (nextQuery l now) with
  | [] => selectNext (online db) l now = Resolved (NoneAvailable None)
  | doc :: _ =>
      (masteredOf l doc.2 = Some true ->
       selectNext (online db) l now = Resolved (NoneAvailable None)) /\
      (masteredOf l doc.2 <> Some true ->
       exists t, nextReviewOf l doc.2 = Some t /\ ts_lt now t /\
         selectNext (online db) l now
           = Resolved (NoneAvailable (Some (minutesUntilNext t now))))
  end.
Proof.
  intros Hdue Hnew.
  rewrite (selectNext_upcoming db l now)
    by (apply filter_none; assumption).
  pose proof (elem_of_fetchOrder db (nextQuery l now)) as Helem.
  destruct (fetchOrder db (nextQuery l now)) as [|doc rest]; [done|].
  cbn [head]. split.
  - intros Hm. by rewrite decide_False by (intros Hnm; by apply Hnm).
  - intros Hnm. rewrite decide_True by done.
    destruct (proj1 (Helem doc)) as [_ [Hw _]]; [left|]. simpl in Hw.
    destruct (nextReviewOf l doc.2) as [t|]; [|done]. by exists t.
Qed.

Lemma upcoming_tier_reads_one_document_witness :
  match fetchOrder upcomingStore (nextQuery mandarin sampleNow) with
  | [] => selectNext (online upcomingStore) mandarin sampleNow
          = Resolved (NoneAvailable None)
  | doc :: _ =>
      (masteredOf mandarin doc.2 = Some true ->
       selectNext (online upcomingStore) mandarin sampleNow
         = Resolved (NoneAvailable None)) /\
      (masteredOf mandarin doc.2 <> Some true ->
       exists t, nextReviewOf mandarin doc.2 = Some t /\ ts_lt sampleNow t /\
         selectNext (online upcomingStore) mandarin sampleNow
           = Resolved (NoneAvailable (Some (minutesUntilNext t sampleNow))))
  end.
Proof.
  apply (upcoming_tier_reads_one_document upcomingStore mandarin sampleNow).
  - assert (E : runQuery upcomingStore (dueQuery mandarin sampleNow) = [])
      by (vm_compute; reflexivity).
    rewrite E. intros doc Hin. by apply elem_of_nil in Hin.
  - intros [id d] [Hlook _]%elem_of_runQuery [Hnone _].
    unfold upcomingStore in Hlook. simpl in *.
    apply lookup_insert_Some in Hlook as [[_ <-]|[_ Hlook]]; [discriminate|].
    apply lookup_insert_Some in Hlook as [[_ <-]|[_ Hlook]]; [discriminate|].
    rewrite lookup_empty in Hlook. discriminate.
Defined.
